(** * Interactive biography RAG application ([app.py]): model and properties

    The development embeds the Streamlit script [app.py] as pure functions
    over an explicit session state.  External services (the embedding
    model, the chat model, the FAISS similarity search, the file system)
    are fields of an environment record; every call made to them is
    recorded in the state so that properties about "which calls were
    made" and "what was passed to the generator" can be stated.

    Python [str] values are sequences of Unicode code points; chunk sizes
    are counted in code points, so text is modelled as [list N]. *)

From Stdlib Require Import ZArith NArith List String Ascii Bool Lia.
From stdpp Require Import base list gmap.

Set Warnings "-register-all".

Local Open Scope Z_scope.

(* ===================================================================== *)
(** * Python strings *)
(* ===================================================================== *)

Module PyStr.

(** A character is a Unicode code point. *)
Definition char := N.
Definition str := list char.

(** A literal of the source, character by character (ASCII literals). *)
Definition lit (s : string) : str :=
  List.map N_of_ascii (list_ascii_of_string s).

(** [a == b] *)
Fixpoint eqb (a b : str) : bool :=
  match a, b with
  | [], [] => true
  | x :: a', y :: b' => (x =? y)%N && eqb a' b'
  | _, _ => false
  end.

(** Python truthiness of a [str]: the empty string is falsy. *)
Definition truthy (s : str) : bool :=
  match s with [] => false | _ :: _ => true end.

(** [len(s)] as a Python integer. *)
Definition len (s : str) : Z := Z.of_nat (length s).

(** [str.isspace] on one code point: the characters removed by
    [str.strip()] when it is called without argument. *)
Definition is_space (c : char) : bool :=
  ((9 <=? c) && (c <=? 13))%N || ((28 <=? c) && (c <=? 32))%N
  || (c =? 133)%N || (c =? 160)%N || (c =? 5760)%N
  || ((8192 <=? c) && (c <=? 8202))%N
  || (c =? 8232)%N || (c =? 8233)%N || (c =? 8239)%N
  || (c =? 8287)%N || (c =? 12288)%N.

Fixpoint lstrip (s : str) : str :=
  match s with
  | [] => []
  | c :: s' => if is_space c then lstrip s' else s
  end.

Definition rstrip (s : str) : str := rev (lstrip (rev s)).

(** [s.strip()] *)
Definition strip (s : str) : str := rstrip (lstrip s).

(** [s.startswith(p)] *)
Fixpoint startswith (p s : str) : bool :=
  match p, s with
  | [], _ => true
  | _ :: _, [] => false
  | a :: p', b :: s' => (a =? b)%N && startswith p' s'
  end.

(** [p in s] for a non-empty [p] (what [re.search] of an escaped literal
    decides). *)
Fixpoint contains (p s : str) : bool :=
  startswith p s || match s with [] => false | _ :: s' => contains p s' end.

(** [sep.join(parts)] *)
Fixpoint join (sep : str) (parts : list str) : str :=
  match parts with
  | [] => []
  | [p] => p
  | p :: ps => p ++ sep ++ join sep ps
  end.

(** [re.split("(" + re.escape(sep) + ")", s)] for a non-empty literal
    [sep]: the pieces between the leftmost non-overlapping occurrences of
    [sep], with the captured separator between two pieces.  [cur] is the
    piece being read (reversed); [fuel] bounds the scan and [S (length s)]
    always suffices. *)
Fixpoint re_split_capture_go (fuel : nat) (sep : str) (cur : str) (s : str)
  : list str :=
  match fuel with
  | O => [rev cur ++ s]
  | S fuel' =>
      match s with
      | [] => [rev cur]
      | c :: s' =>
          if startswith sep s
          then rev cur :: sep
                 :: re_split_capture_go fuel' sep [] (drop (length sep) s)
          else re_split_capture_go fuel' sep (c :: cur) s'
      end
  end.

Definition re_split_capture (sep : str) (s : str) : list str :=
  re_split_capture_go (S (length s)) sep [] s.

(** [list(s)]: the one-character strings of [s]. *)
Definition chars (s : str) : list str := List.map (fun c => [c]) s.

End PyStr.

Import PyStr.

(* ===================================================================== *)
(** * The text splitter

    [app.py] line 66 instantiates [RecursiveCharacterTextSplitter] of the
    package [langchain_text_splitters] with [chunk_size=1000] and
    [chunk_overlap=200]; every other option keeps the class default
    ([separators = ["\n\n", "\n", " ", ""]], [keep_separator = True],
    [strip_whitespace = True], [length_function = len]).  The class is
    library code; the definitions of this module follow its methods
    [_join_docs], [_merge_splits], [_split_text_with_regex] and
    [_split_text] statement by statement. *)
(* ===================================================================== *)

Module TextSplitter.

Section Splitter.

Variable chunk_size : Z.
Variable chunk_overlap : Z.

(** [_join_docs]: join, strip, and [None] for an empty result. *)
Definition _join_docs (docs : list str) (separator : str) : option str :=
  let text := strip (join separator docs) in
  match text with
  | [] => None
  | _ :: _ => Some text
  end.

(** The separator charged to a piece: [separator_len if n > k else 0]. *)
Definition sep_if (separator : str) (n : nat) (k : nat) : Z :=
  if (k <? n)%nat then len separator else 0.

(** The loop condition of the [while] inside [_merge_splits]. *)
Definition keep_popping (separator : str) (_len : Z)
           (current_doc : list str) (total : Z) : bool :=
  (chunk_overlap <? total)
  || ((chunk_size <? total + _len + sep_if separator (length current_doc) 0)
      && (0 <? total)).

(** The [while] loop: drop pieces from the front of [current_doc].  On
    an empty [current_doc] the loop stops: [total] is then [0] (lemma
    [merge_total_inv]) and the loop condition is false (lemma
    [keep_popping_empty]). *)
Fixpoint pop_front (separator : str) (_len : Z)
         (current_doc : list str) (total : Z) : list str * Z :=
  match current_doc with
  | [] => ([], total)
  | d0 :: rest =>
      if keep_popping separator _len current_doc total
      then pop_front separator _len rest
             (total - (len d0 + sep_if separator (length current_doc) 1))
      else (current_doc, total)
  end.

(** The local variables of [_merge_splits]. *)
Record merge_state := MergeState {
  docs : list str;
  current_doc : list str;
  total : Z
}.

(** One iteration of [for d in splits]. *)
Definition merge_step (separator : str) (st : merge_state) (d : str)
  : merge_state :=
  let _len := len d in
  let st1 :=
    if chunk_size <? total st + _len
                     + sep_if separator (length (current_doc st)) 0
    then
      if (0 <? length (current_doc st))%nat
      then
        let docs' :=
          match _join_docs (current_doc st) separator with
          | Some doc => docs st ++ [doc]
          | None => docs st
          end in
        let '(cur', total') :=
          pop_front separator _len (current_doc st) (total st) in
        MergeState docs' cur' total'
      else st
    else st in
  let cur2 := current_doc st1 ++ [d] in
  MergeState (docs st1) cur2
             (total st1 + _len + sep_if separator (length cur2) 1).

(** [_merge_splits(splits, separator)] *)
Definition _merge_splits (splits : list str) (separator : str) : list str :=
  let st := fold_left (merge_step separator) splits (MergeState [] [] 0) in
  match _join_docs (current_doc st) separator with
  | Some doc => docs st ++ [doc]
  | None => docs st
  end.

(** [[_splits[i] + _splits[i + 1] for i in range(1, len(_splits), 2)]]
    on the tail [_splits[1:]]. *)
Fixpoint glue_pairs (l : list str) : list str :=
  match l with
  | a :: b :: l' => (a ++ b) :: glue_pairs l'
  | _ => []
  end.

(** [_split_text_with_regex(text, separator, keep_separator=True)]; with
    one capture group [re.split] returns an odd number of items, so the
    branch [len(_splits) % 2 == 0] adds nothing. *)
Definition _split_text_with_regex (text : str) (separator : str)
  : list str :=
  let splits :=
    match separator with
    | [] => chars text
    | _ :: _ =>
        let _splits := re_split_capture separator text in
        match _splits with
        | [] => []
        | first :: others => first :: glue_pairs others
        end
    end in
  List.filter truthy splits.

(** The body of [_split_text] after the separator is chosen: the loop
    [for s in splits] with its accumulator [_good_splits].  [recurse]
    is [None] when [new_separators] is empty and the recursive call on
    [new_separators] otherwise; [keep_separator] is true, so pieces are
    merged with the empty separator. *)
Fixpoint split_loop (recurse : option (str -> list str))
         (_good_splits : list str) (splits : list str) : list str :=
  match splits with
  | [] =>
      match _good_splits with
      | [] => []
      | _ :: _ => _merge_splits _good_splits []
      end
  | s :: rest =>
      if len s <? chunk_size
      then split_loop recurse (_good_splits ++ [s]) rest
      else
        (match _good_splits with
         | [] => []
         | _ :: _ => _merge_splits _good_splits []
         end)
        ++ (match recurse with
            | None => [s]
            | Some f => f s
            end)
        ++ split_loop recurse [] rest
  end.

(** [_split_text(text, separators)].  The scan [for i, _s in
    enumerate(separators)] is folded into the recursion: a separator
    that is non-empty and absent from [text] is skipped, and when the
    scan ends without a match the last separator is used with no
    separators left.  Recursive calls of the source are made on
    [separators[i + 1:]]. *)
Fixpoint _split_text (separators : list str) (text : str) : list str :=
  match separators with
  | [] => []
  | _s :: rest =>
      let body (new_separators : list str) :=
        split_loop
          (match new_separators with
           | [] => None
           | _ :: _ => Some (_split_text rest)
           end)
          [] (_split_text_with_regex text _s) in
      match _s with
      | [] => body []
      | _ :: _ =>
          if contains _s text then body rest
          else match rest with
               | [] => body []
               | _ :: _ => _split_text rest text
               end
      end
  end.

(** The default separators [["\n\n", "\n", " ", ""]]. *)
Definition default_separators : list str :=
  [[10%N; 10%N]; [10%N]; [32%N]; []].

(** [split_text(text)] *)
Definition split_text (text : str) : list str :=
  _split_text default_separators text.

End Splitter.

End TextSplitter.


(* ===================================================================== *)
(** * Exceptions and UTF-8 decoding *)
(* ===================================================================== *)

(** The outcome of a Python call that may raise: the value, or the text of
    the exception ([str(e)], which is what the handlers of [app.py] print). *)
Inductive result (A : Type) : Type :=
| Ok (a : A)
| Raise (e : str).

Arguments Ok {A} a.
Arguments Raise {A} e.

Module Utf8.

Definition is_cont (x : N) : bool := ((128 <=? x) && (x <=? 191))%N.

(** Strict UTF-8 ([bytes.decode("utf-8")]): shortest form only, no
    surrogates, nothing above U+10FFFF.  [None] stands for
    [UnicodeDecodeError]. *)
Fixpoint decode_points (bs : list Byte.byte) : option str :=
  match bs with
  | [] => Some []
  | b0 :: r0 =>
      let x0 := Byte.to_N b0 in
      if (x0 <? 128)%N then option_map (cons x0) (decode_points r0)
      else if ((194 <=? x0) && (x0 <=? 223))%N then
        match r0 with
        | b1 :: r1 =>
            let x1 := Byte.to_N b1 in
            if is_cont x1
            then option_map (cons ((x0 - 192) * 64 + (x1 - 128))%N)
                            (decode_points r1)
            else None
        | _ => None
        end
      else if ((224 <=? x0) && (x0 <=? 239))%N then
        match r0 with
        | b1 :: b2 :: r2 =>
            let x1 := Byte.to_N b1 in
            let x2 := Byte.to_N b2 in
            let lo := if (x0 =? 224)%N then 160%N else 128%N in
            let hi := if (x0 =? 237)%N then 159%N else 191%N in
            if ((lo <=? x1) && (x1 <=? hi))%N && is_cont x2
            then option_map
                   (cons ((x0 - 224) * 4096 + (x1 - 128) * 64 + (x2 - 128))%N)
                   (decode_points r2)
            else None
        | _ => None
        end
      else if ((240 <=? x0) && (x0 <=? 244))%N then
        match r0 with
        | b1 :: b2 :: b3 :: r3 =>
            let x1 := Byte.to_N b1 in
            let x2 := Byte.to_N b2 in
            let x3 := Byte.to_N b3 in
            let lo := if (x0 =? 240)%N then 144%N else 128%N in
            let hi := if (x0 =? 244)%N then 143%N else 191%N in
            if ((lo <=? x1) && (x1 <=? hi))%N && is_cont x2 && is_cont x3
            then option_map
                   (cons ((x0 - 240) * 262144 + (x1 - 128) * 4096
                          + (x2 - 128) * 64 + (x3 - 128))%N)
                   (decode_points r3)
            else None
        | _ => None
        end
      else None
  end.

(** [b.decode("utf-8")].  The text of [UnicodeDecodeError] is shortened:
    Python's also names the offending byte, its position and the reason. *)
Definition decode (bs : list Byte.byte) : result str :=
  match decode_points bs with
  | Some s => Ok s
  | None => Raise (lit "'utf-8' codec can't decode bytes")
  end.

End Utf8.

(* ===================================================================== *)
(** * The application *)
(* ===================================================================== *)

Module App.

(** ** Data *)

(** [langchain_core.documents.Document] *)
Record Document := {
  page_content : str;
  metadata : list (str * str)
}.

(** [GoogleGenerativeAIEmbeddings(model=..., google_api_key=...)] *)
Record Embeddings := {
  embeddings_model : str;
  embeddings_google_api_key : str
}.

(** [ChatGoogleGenerativeAI(...)]; the temperature [0.3] is kept as the
    fraction [3/10]. *)
Record ChatModel := {
  model : str;
  temperature : Z * Z;
  google_api_key : str;
  convert_system_message_to_human : bool
}.

(** A formatted chat prompt: the list of (role, content) messages handed to
    the chat model. *)
Definition Prompt := list (str * str).

(** One entry of [st.session_state.messages]: the dict
    [{"role": ..., "content": ...}]. *)
Record Message := {
  role : str;
  content : str
}.

(** What a run of the script draws. *)
Inductive Element : Type :=
| Title (body : str)
| Markdown (body : str)
| Warning (body : str)
| Info (body : str)
| Error (body : str)
| ChatMessage (name : str) (body : list Element).

(** The widget values of one run of the script. *)
Record Widgets := {
  api_key : str;
  uploaded_file : option (list Byte.byte);
  clear_chat_history : bool;
  chat_input : option str
}.

Section WithVectors.

(** Embedding vectors are vectors of floats; their type is left open. *)
Context {Vec : Type}.

(** The FAISS vector store: the indexed documents, their vectors, and the
    embeddings object it was built with (which also embeds the queries). *)
Record FAISS := {
  docstore : list Document;
  index : list Vec;
  embedding_function : Embeddings
}.

(** A call made to the embedding model. *)
Inductive EmbedCall : Type :=
| EmbedDocuments (e : Embeddings) (texts : list str)
| EmbedQuery (e : Embeddings) (text : str).

(** The collaborators of the script. *)
Record Env := {
  (** [os.path.exists] *)
  path_exists : str -> bool;
  (** [open(path, "r", encoding="utf-8").read()] *)
  read_text : str -> result str;
  (** constructing the embeddings client *)
  embeddings_new : Embeddings -> result unit;
  embed_documents : Embeddings -> list str -> result (list Vec);
  embed_query : Embeddings -> str -> result Vec;
  (** the documents of the store nearest to a query vector (the retriever
      of [as_retriever()], best match first) *)
  similarity_search : FAISS -> Vec -> list Document;
  (** constructing the chat model client *)
  chat_model_new : ChatModel -> result unit;
  (** one completion of the chat model, parsed to a string *)
  chat_invoke : ChatModel -> Prompt -> result str
}.

(** What survives from one run of the script to the next, and the record of
    the calls made to the external models.  [messages] is
    [st.session_state.messages] ([None] while the key is absent).  An entry
    of [resource_cache], the store of [st.cache_resource], holds the cached
    return value and the elements the function drew, replayed on a hit. *)
Record State := {
  messages : option (list Message);
  resource_cache : gmap str (option FAISS * list Element);
  embedder_calls : list EmbedCall;
  generator_calls : list (ChatModel * Prompt)
}.

Definition set_messages (ms : option (list Message)) (s : State) : State :=
  {| messages := ms;
     resource_cache := resource_cache s;
     embedder_calls := embedder_calls s;
     generator_calls := generator_calls s |}.

Definition set_resource_cache (c : gmap str (option FAISS * list Element))
           (s : State) : State :=
  {| messages := messages s;
     resource_cache := c;
     embedder_calls := embedder_calls s;
     generator_calls := generator_calls s |}.

Definition log_embedder_call (c : EmbedCall) (s : State) : State :=
  {| messages := messages s;
     resource_cache := resource_cache s;
     embedder_calls := embedder_calls s ++ [c];
     generator_calls := generator_calls s |}.

Definition log_generator_call (c : ChatModel * Prompt) (s : State) : State :=
  {| messages := messages s;
     resource_cache := resource_cache s;
     embedder_calls := embedder_calls s;
     generator_calls := generator_calls s ++ [c] |}.

(** ** The monad of the script: state and drawn elements *)

Definition M (A : Type) : Type := State -> A * list Element * State.

Definition ret {A} (a : A) : M A := fun s => (a, [], s).

Definition bind {A B} (m : M A) (k : A -> M B) : M B :=
  fun s =>
    let '(a, out1, s1) := m s in
    let '(b, out2, s2) := k a s1 in
    (b, out1 ++ out2, s2).

Definition draw (e : Element) : M unit := fun s => (tt, [e], s).
Definition modify (f : State -> State) : M unit := fun s => (tt, [], f s).

(** [with st.chat_message(name): body] *)
Definition chat_message {A} (name : str) (body : M A) : M A :=
  fun s => let '(a, out, s') := body s in (a, [ChatMessage name out], s').

Notation "'let*' x ':=' m 'in' k" := (bind m (fun x => k))
  (at level 10, x name, m at level 100, k at level 200).
Notation "'run' m 'then' k" := (bind m (fun _ => k))
  (at level 10, m at level 100, k at level 200).

(** ** Prompt templates *)

(** [template.format(...)] for the templates of [app.py]: every
    [{name}] is replaced by the value of [name], inserted as it is.  (The
    templates of the source have no doubled brace and name only supplied
    variables.)  [field] holds the name being read, reversed. *)
Fixpoint format_go (vars : list (str * str)) (field : option str)
         (template : str) : str :=
  match template with
  | [] => []
  | c :: rest =>
      match field with
      | None =>
          if (c =? 123)%N then format_go vars (Some []) rest
          else c :: format_go vars None rest
      | Some name =>
          if (c =? 125)%N
          then match List.find (fun kv => PyStr.eqb (fst kv) (rev name)) vars with
               | Some kv => snd kv
               | None => []
               end ++ format_go vars None rest
          else format_go vars (Some (c :: name)) rest
      end
  end.

Definition format (template : str) (vars : list (str * str)) : str :=
  format_go vars None template.

(** [ChatPromptTemplate.from_messages(...)]: (role, template) pairs. *)
Definition ChatPromptTemplate := list (str * str).

Definition format_messages (t : ChatPromptTemplate) (vars : list (str * str))
  : Prompt :=
  List.map (fun m => (fst m, format (snd m) vars)) t.

(** Lines 92-99 of [app.py]. *)
Definition system_prompt : str :=
  lit "You are an AI assistant representing the person described in the context. "
  ++ lit "Answer questions as if you are that person. "
  ++ lit "Use the following pieces of retrieved context to answer the question. "
  ++ lit "If the answer is not in the context, say you don't know based on the biography. "
  ++ [10%N; 10%N]
  ++ lit "{context}".

(** Lines 101-106 of [app.py]. *)
Definition prompt : ChatPromptTemplate :=
  [ (lit "system", system_prompt);
    (lit "human", lit "{input}") ].

(** ** Helper functions of [app.py] *)

Variable env : Env.

(** [get_text_content(uploaded_file)], lines 35-51.  An [UploadedFile] is
    always truthy, so [if uploaded_file] tests for [None]. *)
Definition get_text_content (uploaded_file : option (list Byte.byte))
  : M (option str) :=
  match uploaded_file with
  | Some file =>
      match Utf8.decode file with
      | Ok text => ret (Some text)
      | Raise e =>
          run draw (Error (lit "Error reading file: " ++ e)) then ret None
      end
  | None =>
      if path_exists env (lit "biography.txt")
      then
        match read_text env (lit "biography.txt") with
        | Ok text => ret (Some text)
        | Raise e =>
            run draw (Error (lit "Error reading file: " ++ e)) then ret None
        end
      else ret None
  end.

(** [text_splitter.split_documents(docs)] with the splitter of line 66:
    every chunk of a document becomes a document with the same metadata. *)
Definition split_documents (docs : list Document) : list Document :=
  List.flat_map
    (fun d =>
       List.map (fun chunk => {| page_content := chunk; metadata := metadata d |})
                (TextSplitter.split_text 1000 200 (page_content d)))
    docs.

(** [FAISS.from_documents(documents, embedding)]: the texts are embedded in
    one call of [embed_documents]; the index is sized from the first
    vector, so an empty list of vectors raises [IndexError]. *)
Definition from_documents (documents : list Document) (embedding : Embeddings)
  : M (result FAISS) :=
  let texts := List.map page_content documents in
  run modify (log_embedder_call (EmbedDocuments embedding texts)) then
  match embed_documents env embedding texts with
  | Raise e => ret (Raise e)
  | Ok [] => ret (Raise (lit "list index out of range"))
  | Ok vectors =>
      ret (Ok {| docstore := documents;
                 index := vectors;
                 embedding_function := embedding |})
  end.

(** The body of [build_vector_store], lines 58-81. *)
Definition build_vector_store_body (text_content _api_key : str)
  : M (option FAISS) :=
  if negb (truthy text_content) then ret None
  else
    let docs := [ {| page_content := text_content;
                     metadata := [(lit "source", lit "biography")] |} ] in
    let splits := split_documents docs in
    let embeddings := {| embeddings_model := lit "models/embedding-001";
                         embeddings_google_api_key := _api_key |} in
    let* built :=
      match embeddings_new env embeddings with
      | Raise e => ret (Raise e)
      | Ok _ => from_documents splits embeddings
      end in
    match built with
    | Ok vectorstore => ret (Some vectorstore)
    | Raise e =>
        run draw (Error (lit "Error creating vector store: " ++ e)) then ret None
    end.

(** [@st.cache_resource], line 53.  The cache key is computed from the
    arguments whose parameter name does not start with an underscore: of
    [(text_content, _api_key)] only [text_content] is hashed.  A hit returns
    the stored value (also when it is [None]) and replays the stored
    elements without running the function. *)
Definition cache_resource (f : str -> str -> M (option FAISS))
           (text_content _api_key : str) : M (option FAISS) :=
  fun s =>
    match resource_cache s !! text_content with
    | Some (value, drawn) => (value, drawn, s)
    | None =>
        let '(value, drawn, s') := f text_content _api_key s in
        (value, drawn,
         set_resource_cache
           (<[text_content := (value, drawn)]> (resource_cache s')) s')
    end.

(** [build_vector_store], lines 53-81. *)
Definition build_vector_store : str -> str -> M (option FAISS) :=
  cache_resource build_vector_store_body.

(** The chain returned by [create_retrieval_chain(retriever,
    create_stuff_documents_chain(llm, prompt))]. *)
Record Chain := {
  chain_retriever : FAISS;
  chain_llm : ChatModel;
  chain_prompt : ChatPromptTemplate
}.

(** [get_rag_chain(vectorstore, _api_key)], lines 83-114. *)
Definition get_rag_chain (vectorstore : FAISS) (_api_key : str)
  : M (option Chain) :=
  let llm := {| model := lit "gemini-2.0-flash";
                temperature := (3, 10);
                google_api_key := _api_key;
                convert_system_message_to_human := true |} in
  match chat_model_new env llm with
  | Raise e => run draw (Error (lit "Error creating chain: " ++ e)) then ret None
  | Ok _ =>
      ret (Some {| chain_retriever := vectorstore;
                   chain_llm := llm;
                   chain_prompt := prompt |})
  end.

(** The stuff-documents step: the page contents of the retrieved documents
    joined by a blank line (the default document prompt is
    ["{page_content}"], the default separator ["\n\n"]). *)
Definition format_docs (context : list Document) : str :=
  join [10%N; 10%N] (List.map page_content context).

(** The prompt the chain hands to the chat model. *)
Definition compose_prompt (chain : Chain) (context : list Document)
           (input : str) : Prompt :=
  format_messages (chain_prompt chain)
                  [ (lit "input", input); (lit "context", format_docs context) ].

(** The dict returned by the chain. *)
Record Response := {
  response_input : str;
  response_context : list Document;
  response_answer : str
}.

(** [rag_chain.invoke({"input": input})]: retrieve, format the prompt, call
    the chat model. *)
Definition invoke (chain : Chain) (input : str) : M (result Response) :=
  let vectorstore := chain_retriever chain in
  run modify (log_embedder_call
                (EmbedQuery (embedding_function vectorstore) input)) then
  match embed_query env (embedding_function vectorstore) input with
  | Raise e => ret (Raise e)
  | Ok v =>
      let context := similarity_search env vectorstore v in
      let p := compose_prompt chain context input in
      run modify (log_generator_call (chain_llm chain, p)) then
      match chat_invoke env (chain_llm chain) p with
      | Raise e => ret (Raise e)
      | Ok answer =>
          ret (Ok {| response_input := input;
                     response_context := context;
                     response_answer := answer |})
      end
  end.

(** ** Main logic *)

(** [st.session_state.messages.append(m)] *)
Definition append_message (m : Message) (s : State) : State :=
  set_messages
    (Some (match messages s with Some ms => ms | None => [] end ++ [m])) s.

(** The replay loop, lines 141-143. *)
Fixpoint draw_messages (ms : list Message) : M unit :=
  match ms with
  | [] => ret tt
  | m :: rest =>
      run chat_message (role m) (draw (Markdown (content m))) then
      draw_messages rest
  end.

(** Lines 138-139: [if "messages" not in st.session_state]. *)
Definition init_messages : M unit :=
  fun s =>
    match messages s with
    | Some _ => (tt, [], s)
    | None => (tt, [], set_messages (Some []) s)
    end.

(** Lines 141-143 on the current message list. *)
Definition replay_messages : M unit :=
  fun s =>
    draw_messages (match messages s with Some ms => ms | None => [] end) s.

(** Lines 145-158: one question.  [rag_chain] is [None] when the chain could
    not be created; calling [invoke] on it raises inside the [try]. *)
Definition ask (rag_chain : option Chain) (user_input : str) : M unit :=
  run modify (append_message {| role := lit "user"; content := user_input |}) then
  run chat_message (lit "user") (draw (Markdown user_input)) then
  chat_message (lit "assistant")
    (let* response :=
       match rag_chain with
       | Some chain => invoke chain user_input
       | None =>
           ret (Raise (lit "'NoneType' object has no attribute 'invoke'"))
       end in
     match response with
     | Ok r =>
         let answer := response_answer r in
         run draw (Markdown answer) then
         modify (append_message {| role := lit "assistant"; content := answer |})
     | Raise e =>
         draw (Error (lit "An error occurred during generation: " ++ e))
     end).

(** [main()], lines 118-158. *)
Definition main (w : Widgets) : M unit :=
  if negb (truthy (api_key w))
  then draw (Warning (lit "Please enter your Google API Key in the sidebar to start."))
  else
    let* text_content := get_text_content (uploaded_file w) in
    match text_content with
    | Some ((_ :: _) as text) =>
        let* vectorstore := build_vector_store text (api_key w) in
        match vectorstore with
        | Some vs =>
            let* rag_chain := get_rag_chain vs (api_key w) in
            run init_messages then
            run replay_messages then
            match chat_input w with
            | Some ((_ :: _) as user_input) => ask rag_chain user_input
            | _ => ret tt
            end
        | None => ret tt
        end
    | _ =>
        draw (Info (lit "Please upload a .txt file or create a 'biography.txt' file in the app directory."))
    end.

(** One run of the script, top to bottom (lines 13-31, then [main()]).
    A click on "Clear Chat History" empties the message list and reruns the
    script; in the rerun the button reads [False] and nothing is submitted
    in the chat box, and what the interrupted run drew is discarded. *)
Definition page (w : Widgets) : M unit :=
  run draw (Title ([128100%N] ++ lit " Samuel's Interactive Biography")) then
  run draw (Markdown (lit "Upload a biography (text file) and ask questions to chat with it.")) then
  main w.

Definition after_rerun (w : Widgets) : Widgets :=
  {| api_key := api_key w;
     uploaded_file := uploaded_file w;
     clear_chat_history := false;
     chat_input := None |}.

Definition script (w : Widgets) : M unit :=
  fun s =>
    if clear_chat_history w
    then page (after_rerun w) (set_messages (Some []) s)
    else page w s.

End WithVectors.

Arguments FAISS : clear implicits.
Arguments Env : clear implicits.
Arguments State : clear implicits.
Arguments M : clear implicits.
Arguments Chain : clear implicits.

End App.

Import App.

(* ===================================================================== *)
(** * Vocabulary of the properties *)
(* ===================================================================== *)

(** [c2] starts with the last [n] characters of [c1]. *)
Definition overlap_exactly (n : nat) (c1 c2 : str) : Prop :=
  (n <= length c1)%nat /\ (n <= length c2)%nat
  /\ drop (length c1 - n) c1 = take n c2.

(** Every chunk overlaps its successor by exactly [n] characters. *)
Definition consecutive_overlap (n : nat) (chunks : list str) : Prop :=
  forall (i : nat) (c1 c2 : str),
    chunks !! i = Some c1 -> chunks !! S i = Some c2 ->
    overlap_exactly n c1 c2.

(** The same, asked only of the pairs that do not involve the final chunk. *)
Definition overlap_before_final (n : nat) (chunks : list str) : Prop :=
  forall (i : nat) (c1 c2 : str),
    chunks !! i = Some c1 -> chunks !! S i = Some c2 ->
    (S (S i) < length chunks)%nat ->
    overlap_exactly n c1 c2.

(** Every chunk but the last has exactly [n] characters, the last at most. *)
Definition full_but_last (n : nat) (chunks : list str) : Prop :=
  forall (i : nat) (c : str),
    chunks !! i = Some c ->
    (length c <= n)%nat /\ ((S i < length chunks)%nat -> length c = n).

(** No character of [s] is whitespace. *)
Definition no_space (s : str) : Prop :=
  List.forallb (fun c => negb (is_space c)) s = true.

(** [p] occurs in [s]. *)
Definition occurs (p s : str) : Prop :=
  exists before after, s = before ++ p ++ after.

(** The strings of [ps] occur in [s] one after the other, in this order. *)
Fixpoint occur_in_order (ps : list str) (s : str) : Prop :=
  match ps with
  | [] => True
  | p :: rest =>
      exists before after, s = before ++ p ++ after /\ occur_in_order rest after
  end.

(** The fixed part of the system message: [system_prompt] up to its
    [{context}] field. *)
Definition instruction : str :=
  lit "You are an AI assistant representing the person described in the context. "
  ++ lit "Answer questions as if you are that person. "
  ++ lit "Use the following pieces of retrieved context to answer the question. "
  ++ lit "If the answer is not in the context, say you don't know based on the biography. "
  ++ [10%N; 10%N].

(** The grounding rule inside it. *)
Definition grounding_rule : str :=
  lit "If the answer is not in the context, say you don't know based on the biography. ".

(** The objects [build_vector_store] and [get_rag_chain] create for a key. *)
Definition embeddings_of (_api_key : str) : Embeddings :=
  {| embeddings_model := lit "models/embedding-001";
     embeddings_google_api_key := _api_key |}.

Definition llm_of (_api_key : str) : ChatModel :=
  {| model := lit "gemini-2.0-flash";
     temperature := (3, 10);
     google_api_key := _api_key;
     convert_system_message_to_human := true |}.

Definition chain_of {Vec} (vectorstore : FAISS Vec) (_api_key : str) : Chain Vec :=
  {| chain_retriever := vectorstore;
     chain_llm := llm_of _api_key;
     chain_prompt := prompt |}.

Definition user_turn (text : str) : Message :=
  {| role := lit "user"; content := text |}.

Definition assistant_turn (text : str) : Message :=
  {| role := lit "assistant"; content := text |}.

(** The parts of the outcome of a run. *)
Definition value {Vec A} (r : A * list Element * State Vec) : A := fst (fst r).
Definition drawn {Vec A} (r : A * list Element * State Vec) : list Element :=
  snd (fst r).
Definition state_after {Vec A} (r : A * list Element * State Vec) : State Vec :=
  snd r.

(** The conversation shown by the page ([getHistory]). *)
Definition history {Vec} (s : State Vec) : list Message :=
  match messages s with Some ms => ms | None => [] end.

(** The session is ready for the document [text]: a key is entered, the
    document is loaded, and its index [vectorstore] is built and cached. *)
Definition Ready {Vec} (env : Env Vec) (w : Widgets) (s : State Vec)
           (text : str) (vectorstore : FAISS Vec) : Prop :=
  truthy (api_key w) = true
  /\ clear_chat_history w = false
  /\ value (get_text_content env (uploaded_file w) s) = Some text
  /\ truthy text = true
  /\ exists elements, resource_cache s !! text = Some (Some vectorstore, elements).

(** The query [q] is submitted, the chat model client is created, and the
    retriever returns [context] for [q]. *)
Definition Asked {Vec} (env : Env Vec) (w : Widgets)
           (vectorstore : FAISS Vec) (q : str) (context : list Document)
  : Prop :=
  chat_input w = Some q
  /\ truthy q = true
  /\ chat_model_new env (llm_of (api_key w)) = Ok tt
  /\ exists v, embed_query env (embedding_function vectorstore) q = Ok v
               /\ similarity_search env vectorstore v = context.

(** No call of [embed_documents] among the calls. *)
Definition no_document_embedding (calls : list EmbedCall) : Prop :=
  forall c, In c calls ->
            match c with EmbedDocuments _ _ => False | EmbedQuery _ _ => True end.

(** ** Notions used in the proofs *)

(** No opening brace in [s]: [format] copies such text unchanged. *)
Definition plain (s : str) : Prop :=
  List.forallb (fun c => negb (c =? 123)%N) s = true.

(** The state of the merge loop of the splitter while it runs over the
    characters of a text without whitespace, for chunk size [n] and overlap
    [k]: the window [w] being filled and the chunks already emitted. *)
Definition window_inv (n k : nat) (st : TextSplitter.merge_state) : Prop :=
  exists w,
    TextSplitter.current_doc st = chars w
    /\ TextSplitter.total st = len w
    /\ (length w <= n)%nat
    /\ no_space w
    /\ Forall (fun d => length d = n) (TextSplitter.docs st)
    /\ consecutive_overlap k (TextSplitter.docs st)
    /\ (forall l, last (TextSplitter.docs st) = Some l -> overlap_exactly k l w).

(** Two states with the same cache of built indexes. *)
Definition agree {Vec} (s1 s2 : State Vec) : Prop :=
  resource_cache s1 = resource_cache s2.

(** Two runs made the same calls to the external models. *)
Definition same_calls {Vec} (s1 s1' s2 s2' : State Vec) : Prop :=
  exists de dg,
    embedder_calls s1' = embedder_calls s1 ++ de
    /\ embedder_calls s2' = embedder_calls s2 ++ de
    /\ generator_calls s1' = generator_calls s1 ++ dg
    /\ generator_calls s2' = generator_calls s2 ++ dg.

(** A computation whose value, cache and external calls do not depend on
    the message list it starts from. *)
Definition history_blind {Vec A} (m : M Vec A) : Prop :=
  forall s1 s2,
    agree s1 s2 ->
    value (m s1) = value (m s2)
    /\ agree (state_after (m s1)) (state_after (m s2))
    /\ same_calls s1 (state_after (m s1)) s2 (state_after (m s2)).

(** A computation that leaves the cache alone and never embeds documents. *)
Definition query_only {Vec A} (m : M Vec A) : Prop :=
  forall s,
    resource_cache (state_after (m s)) = resource_cache s
    /\ exists calls,
        embedder_calls (state_after (m s)) = embedder_calls s ++ calls
        /\ no_document_embedding calls.

(** ** Further notions *)

(** How one entry of the conversation is drawn. *)
Definition render (m : Message) : Element :=
  ChatMessage (role m) [Markdown (content m)].

(** The index [build_vector_store] creates for a text, a key and the
    vectors the embedding model returned. *)
Definition index_of {Vec} (text key : str) (vectors : list Vec) : FAISS Vec :=
  {| docstore :=
       split_documents
         [ {| page_content := text;
              metadata := [(lit "source", lit "biography")] |} ];
     index := vectors;
     embedding_function := embeddings_of key |}.

(** Every cached index is the index of the text it is cached for. *)
Definition cache_sound {Vec} (env : Env Vec) (s : State Vec) : Prop :=
  forall (text : str) (vs : FAISS Vec) (elements : list Element),
    resource_cache s !! text = Some (Some vs, elements) ->
    exists key vectors,
      vs = index_of text key vectors
      /\ vectors <> []
      /\ embed_documents env (embeddings_of key)
                         (TextSplitter.split_text 1000 200 text)
         = Ok vectors.

(** A chunk as the splitter emits it: not empty, at most [n] characters,
    no whitespace at either end. *)
Definition well_formed_chunk (n : nat) (c : str) : Prop :=
  c <> [] /\ (length c <= n)%nat /\ strip c = c.

(** The chunks put back together, each one after the first without its
    first [k] characters. *)
Definition rejoin (k : nat) (chunks : list str) : str :=
  match chunks with
  | [] => []
  | c :: rest => c ++ concat (List.map (drop k) rest)
  end.

(* ===================================================================== *)
(** * A concrete session, used to exercise the statements *)
(* ===================================================================== *)

Module Scenario.

(** Stub services: vectors are lists of integers, the retriever returns the
    first four documents of the store, and the chat model either answers
    ["Paris"] or times out. *)
Definition stub_env (generator_fails : bool) : Env (list Z) :=
  {| path_exists := fun _ => false;
     read_text := fun _ => Raise (lit "No such file or directory");
     embeddings_new := fun _ => Ok tt;
     embed_documents := fun _ texts => Ok (List.map (fun t => [len t]) texts);
     embed_query := fun _ t => Ok [len t];
     similarity_search := fun vs _ => take 4 (docstore vs);
     chat_model_new := fun _ => Ok tt;
     chat_invoke := fun _ _ =>
       if generator_fails then Raise (lit "timeout") else Ok (lit "Paris") |}.

(** The same, with a file [biography.txt] in the working directory. *)
Definition local_file_env (contents : result str) : Env (list Z) :=
  {| path_exists := fun p => PyStr.eqb p (lit "biography.txt");
     read_text := fun _ => contents;
     embeddings_new := fun _ => Ok tt;
     embed_documents := fun _ texts => Ok (List.map (fun t => [len t]) texts);
     embed_query := fun _ t => Ok [len t];
     similarity_search := fun vs _ => take 4 (docstore vs);
     chat_model_new := fun _ => Ok tt;
     chat_invoke := fun _ _ => Ok (lit "Paris") |}.

Definition biography : string :=
  "Alice was born in 1990 in Paris. She became an engineer in 2015."%string.

Definition fresh : State (list Z) :=
  {| messages := None;
     resource_cache := ∅;
     embedder_calls := [];
     generator_calls := [] |}.

Definition widgets (key : string) (file : option (list Byte.byte))
           (clear : bool) (question : option string) : Widgets :=
  {| api_key := lit key;
     uploaded_file := file;
     clear_chat_history := clear;
     chat_input := option_map lit question |}.

Definition upload : option (list Byte.byte) :=
  Some (list_byte_of_string biography).

(** The state after the page was first shown with the document uploaded. *)
Definition loaded : State (list Z) :=
  state_after (script (stub_env false) (widgets "key-1" upload false None) fresh).

(** The index built for the biography. *)
Definition biography_document : Document :=
  {| page_content := lit biography;
     metadata := [(lit "source", lit "biography")] |}.

Definition biography_index : FAISS (list Z) :=
  {| docstore := [biography_document];
     index := [[64]];
     embedding_function := embeddings_of (lit "key-1") |}.

Definition question : string := "Where was Alice born?"%string.

(** The widgets of a run in which the question is submitted. *)
Definition asking : Widgets := widgets "key-1" upload false (Some question).

(** The state after one answered question. *)
Definition answered : State (list Z) :=
  state_after (script (stub_env false) asking loaded).

(** An upload that is not UTF-8, and an empty upload. *)
Definition not_utf8 : list Byte.byte := [Byte.x41; Byte.xff; Byte.x42].

Definition empty_upload : option (list Byte.byte) := Some [].

(** Texts at the scale of the configured chunk size. *)
Definition three_blocks : str :=
  repeat 97%N 600 ++ [32%N] ++ repeat 98%N 600 ++ [32%N] ++ repeat 99%N 600.

Definition unbroken : str := repeat 97%N 2500.

(** The biography as a text file holds it: one line, ended by a newline. *)
Definition biography_line : str := lit biography ++ [10%N].

End Scenario.

(* ===================================================================== *)
(** * The sample session with a service out of order *)
(* ===================================================================== *)

Module Faults.

(** The stub services of the sample session with one of them out of
    order: the embedding model rejects the key ["key-1"], the embedding of
    questions fails, or the chat model client cannot be created. *)
Definition key_rejected : Env (list Z) :=
  {| path_exists := fun _ => false;
     read_text := fun _ => Raise (lit "No such file or directory");
     embeddings_new := fun _ => Ok tt;
     embed_documents := fun e texts =>
       if PyStr.eqb (embeddings_google_api_key e) (lit "key-1")
       then Raise (lit "API key not valid")
       else Ok (List.map (fun t => [len t]) texts);
     embed_query := fun _ t => Ok [len t];
     similarity_search := fun vs _ => take 4 (docstore vs);
     chat_model_new := fun _ => Ok tt;
     chat_invoke := fun _ _ => Ok (lit "Paris") |}.

Definition retriever_down : Env (list Z) :=
  {| path_exists := fun _ => false;
     read_text := fun _ => Raise (lit "No such file or directory");
     embeddings_new := fun _ => Ok tt;
     embed_documents := fun _ texts => Ok (List.map (fun t => [len t]) texts);
     embed_query := fun _ _ => Raise (lit "network unreachable");
     similarity_search := fun vs _ => take 4 (docstore vs);
     chat_model_new := fun _ => Ok tt;
     chat_invoke := fun _ _ => Ok (lit "Paris") |}.

Definition chat_client_down : Env (list Z) :=
  {| path_exists := fun _ => false;
     read_text := fun _ => Raise (lit "No such file or directory");
     embeddings_new := fun _ => Ok tt;
     embed_documents := fun _ texts => Ok (List.map (fun t => [len t]) texts);
     embed_query := fun _ t => Ok [len t];
     similarity_search := fun vs _ => take 4 (docstore vs);
     chat_model_new := fun _ => Raise (lit "invalid model");
     chat_invoke := fun _ _ => Ok (lit "Paris") |}.

(** The first page load of the sample session, and a question asked
    afterwards with another key. *)
Definition first_load : Widgets :=
  Scenario.widgets "key-1" Scenario.upload false None.

Definition asking_with_new_key : Widgets :=
  Scenario.widgets "key-2" Scenario.upload false (Some Scenario.question).

End Faults.

(* ===================================================================== *)
(** * Properties of the text splitter *)
(* ===================================================================== *)

Import TextSplitter.

Section StringFacts.

Lemma join_nil (parts : list str) : join [] parts = concat parts.
Proof.
  induction parts as [|p [|q ps] IH]; simpl in *.
  - reflexivity.
  - now rewrite app_nil_r.
  - now rewrite IH.
Qed.

Lemma concat_chars (s : str) : concat (chars s) = s.
Proof. induction s as [|c s IH]; simpl; [reflexivity | now rewrite IH]. Qed.

Lemma chars_app (a b : str) : chars (a ++ b) = chars a ++ chars b.
Proof. apply List.map_app. Qed.

Lemma length_chars (s : str) : length (chars s) = length s.
Proof. apply List.length_map. Qed.

Lemma startswith_drop (p s : str) :
  startswith p s = true -> s = p ++ drop (length p) s.
Proof.
  revert s; induction p as [|a p IH]; intros [|b s] H; simpl in *;
    try reflexivity; try discriminate.
  apply andb_true_iff in H as [Hab Hps].
  apply N.eqb_eq in Hab. subst b. f_equal. now apply IH.
Qed.

Lemma concat_filter_truthy (l : list str) :
  concat (List.filter truthy l) = concat l.
Proof.
  induction l as [|[|c p] l IH]; simpl; [reflexivity | exact IH |].
  now rewrite IH.
Qed.

Lemma re_split_capture_go_glued (fuel : nat) (sep cur s : str) :
  exists first others,
    re_split_capture_go fuel sep cur s = first :: others
    /\ concat (first :: glue_pairs others) = rev cur ++ s.
Proof.
  revert cur s; induction fuel as [|fuel IH]; intros cur s; simpl.
  - exists (rev cur ++ s), []. simpl. now rewrite app_nil_r.
  - destruct s as [|c s'].
    + exists (rev cur), []. simpl. now rewrite !app_nil_r.
    + destruct (startswith sep (c :: s')) eqn:Hsw.
      * destruct (IH [] (drop (length sep) (c :: s'))) as (f & o & Hgo & Hcat).
        exists (rev cur), (sep :: re_split_capture_go fuel sep []
                                  (drop (length sep) (c :: s'))).
        split; [reflexivity |].
        rewrite Hgo. simpl in Hcat |- *.
        rewrite <- app_assoc, Hcat.
        now rewrite <- (startswith_drop _ _ Hsw).
      * destruct (IH (c :: cur) s') as (f & o & Hgo & Hcat).
        exists f, o. split; [exact Hgo |].
        simpl in Hcat. rewrite Hcat. now rewrite <- app_assoc.
Qed.

Lemma concat_split_text_with_regex (text separator : str) :
  concat (_split_text_with_regex text separator) = text.
Proof.
  unfold _split_text_with_regex. rewrite concat_filter_truthy.
  destruct separator as [|c sep]; [apply concat_chars |].
  unfold re_split_capture.
  destruct (re_split_capture_go_glued (S (length text)) (c :: sep) [] text)
    as (f & o & Hgo & Hcat).
  rewrite Hgo. exact Hcat.
Qed.

Lemma length_piece_le_concat (p : str) (l : list str) :
  In p l -> (length p <= length (concat l))%nat.
Proof.
  induction l as [|q l IH]; simpl; [tauto |].
  intros [->|Hin]; rewrite length_app; [lia |].
  specialize (IH Hin). lia.
Qed.

Lemma len_app (a b : str) : len (a ++ b) = len a + len b.
Proof. unfold len. rewrite length_app. lia. Qed.

Lemma len_concat_cons (p : str) (l : list str) :
  len (concat (p :: l)) = len p + len (concat l).
Proof. unfold len. simpl. rewrite length_app. lia. Qed.

End StringFacts.

Section MergeTotal.

Variables chunk_size chunk_overlap : Z.
Variable separator : str.

Lemma sep_if_lt (n k : nat) : (k < n)%nat -> sep_if separator n k = len separator.
Proof.
  intros H. unfold sep_if.
  now replace (k <? n)%nat with true by (symmetry; apply Nat.ltb_lt; lia).
Qed.

Lemma sep_if_ge (n k : nat) : (n <= k)%nat -> sep_if separator n k = 0.
Proof.
  intros H. unfold sep_if.
  now replace (k <? n)%nat with false by (symmetry; apply Nat.ltb_ge; lia).
Qed.

Lemma len_join_cons (d : str) (rest : list str) :
  len (join separator (d :: rest))
  = len d + sep_if separator (length (d :: rest)) 1 + len (join separator rest).
Proof.
  destruct rest as [|r rest].
  - rewrite sep_if_ge by (simpl; lia). unfold len. simpl. lia.
  - rewrite sep_if_lt by (simpl; lia).
    cbn [join]. rewrite !len_app. lia.
Qed.

Lemma len_join_snoc (cur : list str) (d : str) :
  len (join separator (cur ++ [d]))
  = len (join separator cur) + len d
    + sep_if separator (length (cur ++ [d])) 1.
Proof.
  induction cur as [|c cur IH].
  - rewrite sep_if_ge by (simpl; lia). unfold len. simpl. lia.
  - change ((c :: cur) ++ [d]) with (c :: (cur ++ [d])).
    rewrite !len_join_cons, IH.
    rewrite (sep_if_lt (length (c :: cur ++ [d])))
      by (simpl; rewrite length_app; simpl; lia).
    destruct cur as [|c' cur].
    + rewrite !sep_if_ge by (simpl; lia). lia.
    + rewrite !sep_if_lt by (simpl; rewrite ?length_app; simpl; lia). lia.
Qed.

(** [total] is the length of the joined [current_doc] all along the loop. *)
Lemma pop_front_total (_len : Z) (cur : list str) (tot : Z) :
  tot = len (join separator cur) ->
  snd (pop_front chunk_size chunk_overlap separator _len cur tot)
  = len (join separator
              (fst (pop_front chunk_size chunk_overlap separator _len cur tot))).
Proof.
  revert tot. induction cur as [|d rest IH]; intros tot Htot; [exact Htot |].
  cbn [pop_front].
  destruct (keep_popping chunk_size chunk_overlap separator _len (d :: rest) tot);
    [| exact Htot].
  apply IH. rewrite Htot, len_join_cons. lia.
Qed.

Lemma merge_step_total (st : merge_state) (d : str) :
  total st = len (join separator (current_doc st)) ->
  total (merge_step chunk_size chunk_overlap separator st d)
  = len (join separator
              (current_doc (merge_step chunk_size chunk_overlap separator st d))).
Proof.
  intros Htot. unfold merge_step.
  destruct (chunk_size <? _) ; [destruct (0 <? length (current_doc st))%nat |].
  - pose proof (pop_front_total (len d) (current_doc st) (total st) Htot) as Hpop.
    destruct (pop_front _ _ _ _ _ _) as [cur' tot']. cbn [fst snd] in Hpop.
    cbn [docs current_doc total]. rewrite len_join_snoc, Hpop. lia.
  - cbn [docs current_doc total]. rewrite len_join_snoc, Htot. lia.
  - cbn [docs current_doc total]. rewrite len_join_snoc, Htot. lia.
Qed.

Lemma merge_total_inv (splits : list str) (st : merge_state) :
  total st = len (join separator (current_doc st)) ->
  total (fold_left (merge_step chunk_size chunk_overlap separator) splits st)
  = len (join separator
              (current_doc
                 (fold_left (merge_step chunk_size chunk_overlap separator)
                            splits st))).
Proof.
  revert st. induction splits as [|d splits IH]; intros st Htot; [exact Htot |].
  simpl. apply IH. now apply merge_step_total.
Qed.

(** On an empty [current_doc] the [while] loop of [_merge_splits] stops. *)
Lemma keep_popping_empty (_len : Z) :
  0 <= chunk_overlap ->
  keep_popping chunk_size chunk_overlap separator _len [] 0 = false.
Proof.
  intros Hov. unfold keep_popping.
  replace (chunk_overlap <? 0) with false by (symmetry; apply Z.ltb_ge; lia).
  now rewrite andb_false_r.
Qed.

End MergeTotal.

Section ShortText.

Variables chunk_size chunk_overlap : Z.

Lemma sep_if_nil (n k : nat) : sep_if [] n k = 0.
Proof. unfold sep_if. now destruct (k <? n)%nat. Qed.

Lemma merge_fits (splits : list str) :
  forall D cur tot,
    tot + len (concat splits) <= chunk_size ->
    fold_left (merge_step chunk_size chunk_overlap []) splits
              (MergeState D cur tot)
    = MergeState D (cur ++ splits) (tot + len (concat splits)).
Proof.
  induction splits as [|d splits IH]; intros D cur tot Hfit.
  - simpl. rewrite app_nil_r. f_equal. unfold len; simpl; lia.
  - rewrite len_concat_cons in Hfit.
    assert (0 <= len (concat splits)) by (unfold len; lia).
    simpl fold_left. unfold merge_step at 2. simpl.
    rewrite !sep_if_nil.
    destruct (chunk_size <? tot + len d + 0) eqn:Hc; [lia |].
    simpl. rewrite IH by lia.
    rewrite <- app_assoc. simpl. f_equal.
    rewrite len_app. lia.
Qed.

Lemma merge_splits_fits (splits : list str) :
  len (concat splits) <= chunk_size ->
  _merge_splits chunk_size chunk_overlap splits []
  = match strip (concat splits) with [] => [] | _ :: _ => [strip (concat splits)] end.
Proof.
  intros Hfit. unfold _merge_splits.
  rewrite merge_fits by lia. simpl.
  unfold _join_docs. rewrite join_nil.
  now destruct (strip (concat splits)).
Qed.

Lemma split_loop_short (recurse : option (str -> list str)) (splits : list str) :
  forall good,
    Forall (fun p => len p < chunk_size) splits ->
    split_loop chunk_size chunk_overlap recurse good splits
    = match good ++ splits with
      | [] => []
      | _ :: _ => _merge_splits chunk_size chunk_overlap (good ++ splits) []
      end.
Proof.
  induction splits as [|s rest IH]; intros good Hshort.
  - simpl. rewrite app_nil_r. reflexivity.
  - inversion Hshort as [|? ? Hs Hrest]; subst.
    simpl. destruct (len s <? chunk_size) eqn:Hlt; [| lia].
    rewrite IH by assumption.
    rewrite <- app_assoc. simpl.
    now destruct good.
Qed.

Lemma pieces_short (text separator : str) :
  len text < chunk_size ->
  Forall (fun p => len p < chunk_size) (_split_text_with_regex text separator).
Proof.
  intros Hlt. apply List.Forall_forall. intros p Hin.
  apply length_piece_le_concat in Hin.
  rewrite concat_split_text_with_regex in Hin.
  unfold len in *. lia.
Qed.

Lemma split_pieces_short (recurse : option (str -> list str))
      (text separator : str) :
  len text < chunk_size ->
  split_loop chunk_size chunk_overlap recurse []
             (_split_text_with_regex text separator)
  = match strip text with [] => [] | _ :: _ => [strip text] end.
Proof.
  intros Hlt.
  rewrite split_loop_short by now apply pieces_short.
  simpl app.
  pose proof (concat_split_text_with_regex text separator) as Hcat.
  destruct (_split_text_with_regex text separator) as [|p ps] eqn:Hp.
  - simpl in Hcat. subst text. reflexivity.
  - rewrite merge_splits_fits by (rewrite Hcat; lia).
    now rewrite Hcat.
Qed.

Lemma split_text_short_any (separators : list str) (text : str) :
  separators <> [] ->
  len text < chunk_size ->
  _split_text chunk_size chunk_overlap separators text
  = match strip text with [] => [] | _ :: _ => [strip text] end.
Proof.
  intros Hne Hlt. induction separators as [|s rest IH]; [congruence |].
  simpl.
  destruct s as [|c s].
  - now apply split_pieces_short.
  - destruct (contains (c :: s) text).
    + now apply split_pieces_short.
    + destruct rest as [|r rest'].
      * now apply split_pieces_short.
      * apply IH. congruence.
Qed.

End ShortText.

(** C4 (amended): a text shorter than [chunk_size] that has a character
    other than whitespace is split into exactly one chunk, and this chunk
    is the text with its leading and trailing whitespace removed. *)
Theorem short_text_single_stripped_chunk (chunk_size chunk_overlap : Z) (text : str) :
  len text < chunk_size ->
  strip text <> [] ->
  split_text chunk_size chunk_overlap text = [strip text].
Proof.
  intros Hlt Hne. unfold split_text.
  rewrite split_text_short_any by (unfold default_separators; congruence || assumption).
  now destruct (strip text).
Qed.

Section NoWhitespace.

Lemma no_space_cons (c : char) (s : str) :
  no_space (c :: s) <-> is_space c = false /\ no_space s.
Proof.
  unfold no_space. simpl. rewrite andb_true_iff, negb_true_iff. tauto.
Qed.

Lemma no_space_app (a b : str) :
  no_space (a ++ b) <-> no_space a /\ no_space b.
Proof. unfold no_space. rewrite List.forallb_app, andb_true_iff. tauto. Qed.

Lemma no_space_rev (s : str) : no_space s -> no_space (rev s).
Proof.
  induction s as [|c s IH]; [trivial |].
  rewrite no_space_cons. intros [Hc Hs]. simpl.
  apply no_space_app. split; [now apply IH |].
  apply no_space_cons. split; [assumption | reflexivity].
Qed.

Lemma no_space_drop (n : nat) (s : str) : no_space s -> no_space (drop n s).
Proof.
  intros H. rewrite <- (take_drop n s) in H. now apply no_space_app in H.
Qed.

Lemma lstrip_no_space (s : str) : no_space s -> lstrip s = s.
Proof.
  destruct s as [|c s]; [reflexivity |].
  rewrite no_space_cons. intros [Hc _]. simpl. now rewrite Hc.
Qed.

Lemma strip_no_space (s : str) : no_space s -> strip s = s.
Proof.
  intros H. unfold strip, rstrip.
  rewrite (lstrip_no_space s H).
  rewrite (lstrip_no_space (rev s)) by now apply no_space_rev.
  apply rev_involutive.
Qed.

Lemma startswith_space_false (c : char) (p s : str) :
  is_space c = true -> no_space s -> startswith (c :: p) s = false.
Proof.
  intros Hc Hs. destruct s as [|b s]; [reflexivity |].
  apply no_space_cons in Hs as [Hb _]. simpl.
  destruct (N.eqb_spec c b) as [->|]; [congruence | reflexivity].
Qed.

Lemma contains_space_false (c : char) (p s : str) :
  is_space c = true -> no_space s -> contains (c :: p) s = false.
Proof.
  intros Hc. induction s as [|b s IH]; intros Hs.
  - reflexivity.
  - cbn [contains]. rewrite startswith_space_false by assumption.
    apply no_space_cons in Hs as [_ Hs]. now apply IH.
Qed.

End NoWhitespace.

Section Windows.

(** Chunk size [n] and overlap [k], as the naturals they are. *)
Variables n k : nat.
Hypothesis k_lt_n : (k < n)%nat.

Let cs : Z := Z.of_nat n.
Let ov : Z := Z.of_nat k.

Lemma pop_front_chars (w : str) :
  (k <= length w)%nat ->
  (length w <= n)%nat ->
  pop_front cs ov [] 1 (chars w) (len w)
  = (chars (drop (length w - k) w), ov).
Proof.
  induction w as [|a w IH]; intros Hk Hn.
  - simpl in *. assert (k = 0)%nat as -> by lia. reflexivity.
  - cbn [chars List.map pop_front].
    unfold keep_popping. rewrite !sep_if_nil.
    destruct (Nat.eq_dec k (length (a :: w))) as [Heq|Hne].
    + replace (ov <? len (a :: w)) with false
        by (symmetry; apply Z.ltb_ge; unfold ov, len; lia).
      replace (cs <? len (a :: w) + 1 + 0) with false
        by (symmetry; apply Z.ltb_ge; unfold cs, len; simpl in *; lia).
      simpl orb.
      replace (length (a :: w) - k)%nat with 0%nat by lia.
      cbn [drop]. f_equal. unfold ov, len. now rewrite Heq.
    + replace (ov <? len (a :: w)) with true
        by (symmetry; apply Z.ltb_lt; unfold ov, len; simpl in *; lia).
      simpl orb. cbv iota.
      replace (len (a :: w) - (len [a] + 0)) with (len w)
        by (unfold len; simpl; lia).
      fold (chars w). rewrite IH by (simpl in *; lia).
      replace (length (a :: w) - k)%nat with (S (length w - k))
        by (simpl in *; lia).
      reflexivity.
Qed.

Lemma consecutive_overlap_snoc (D : list str) (w : str) :
  consecutive_overlap k D ->
  (forall l, last D = Some l -> overlap_exactly k l w) ->
  consecutive_overlap k (D ++ [w]).
Proof.
  intros HD Hlast i c1 c2 H1 H2.
  destruct (decide (S i < length D)%nat) as [Hlt|Hge].
  - rewrite lookup_app_l in H1 by lia. rewrite lookup_app_l in H2 by lia.
    eapply HD; eassumption.
  - assert (S i = length D) as Hi.
    { apply lookup_lt_Some in H2. rewrite length_app in H2. simpl in H2. lia. }
    rewrite lookup_app_l in H1 by lia.
    rewrite lookup_app_r in H2 by lia.
    replace (S i - length D)%nat with 0%nat in H2 by lia.
    simpl in H2. injection H2 as <-.
    apply Hlast. rewrite last_lookup.
    replace (Nat.pred (length D)) with i by lia. exact H1.
Qed.

Lemma window_step (st : merge_state) (c : char) :
  (0 < n)%nat ->
  is_space c = false ->
  window_inv n k st ->
  window_inv n k (merge_step cs ov [] st [c]).
Proof.
  intros Hn Hc (w & Hcur & Htot & Hlen & Hns & Hfull & Hov & Hlast).
  unfold merge_step. rewrite !sep_if_nil. rewrite Hcur, Htot.
  change (len [c]) with 1.
  destruct (cs <? len w + 1 + 0) eqn:Hemit.
  - (* the window is full: emit it and keep its last [k] characters *)
    apply Z.ltb_lt in Hemit.
    assert (length w = n) as Hw by (unfold cs, len in Hemit; lia).
    rewrite length_chars.
    replace (0 <? length w)%nat with true by (symmetry; apply Nat.ltb_lt; lia).
    unfold _join_docs. rewrite join_nil, concat_chars, strip_no_space by assumption.
    destruct w as [|a w'] eqn:Ew; [simpl in Hw; lia |]. rewrite <- Ew in *.
    rewrite pop_front_chars by lia.
    exists (drop (length w - k) w ++ [c]). simpl.
    split_and!.
    + unfold chars. now rewrite List.map_app.
    + rewrite len_app. unfold ov, len. rewrite length_drop. simpl. lia.
    + rewrite length_app, length_drop. simpl. lia.
    + apply no_space_app. split; [now apply no_space_drop |].
      apply no_space_cons. split; [assumption | reflexivity].
    + apply Forall_app. split; [assumption |]. now constructor.
    + now apply consecutive_overlap_snoc.
    + intros l Hl. rewrite last_snoc in Hl. injection Hl as <-.
      unfold overlap_exactly. rewrite length_app, length_drop. simpl.
      split_and!; try lia.
      rewrite take_app_le by (rewrite length_drop; lia).
      rewrite take_ge by (rewrite length_drop; lia). reflexivity.
  - (* the character fits *)
    apply Z.ltb_ge in Hemit.
    exists (w ++ [c]). simpl.
    split_and!.
    + rewrite ?Hcur. unfold chars. now rewrite List.map_app.
    + rewrite ?Htot, len_app. change (len [c]) with 1. lia.
    + rewrite length_app. simpl. unfold cs, len in Hemit. lia.
    + apply no_space_app. split; [assumption |].
      apply no_space_cons. split; [assumption | reflexivity].
    + assumption.
    + assumption.
    + intros l Hl. destruct (Hlast l Hl) as (H1 & H2 & H3).
      unfold overlap_exactly. rewrite length_app. simpl.
      split_and!; try lia.
      rewrite take_app_le by lia. exact H3.
Qed.

Lemma window_fold (text : str) :
  (0 < n)%nat ->
  no_space text ->
  forall st, window_inv n k st ->
  window_inv n k (fold_left (merge_step cs ov []) (chars text) st).
Proof.
  intros Hn. induction text as [|c text IH]; intros Hns st Hinv.
  - exact Hinv.
  - apply no_space_cons in Hns as [Hc Hns]. simpl.
    apply IH; [assumption |]. now apply window_step.
Qed.

Lemma window_init : window_inv n k (MergeState [] [] 0).
Proof.
  exists []. simpl. split_and!.
  - reflexivity.
  - reflexivity.
  - lia.
  - reflexivity.
  - constructor.
  - intros i c1 c2 H. discriminate.
  - intros l H. discriminate.
Qed.

Lemma full_but_last_snoc (D : list str) (w : str) :
  Forall (fun d => length d = n) D ->
  (length w <= n)%nat ->
  full_but_last n (D ++ [w]).
Proof.
  intros HD Hw i c Hi. rewrite length_app. simpl.
  destruct (decide (i < length D)%nat) as [Hlt|Hge].
  - rewrite lookup_app_l in Hi by lia.
    rewrite Forall_lookup in HD. specialize (HD _ _ Hi). simpl in HD. lia.
  - rewrite lookup_app_r in Hi by lia.
    destruct (i - length D)%nat eqn:E; simpl in Hi; [| now destruct n0].
    injection Hi as <-. split; [assumption | lia].
Qed.

Lemma full_but_last_all (D : list str) :
  Forall (fun d => length d = n) D -> full_but_last n D.
Proof.
  intros HD i c Hi. rewrite Forall_lookup in HD. specialize (HD _ _ Hi).
  simpl in HD. split; [lia | intros _; assumption].
Qed.

Lemma merge_chars_windows (text : str) :
  (0 < n)%nat ->
  no_space text ->
  consecutive_overlap k (_merge_splits cs ov (chars text) [])
  /\ full_but_last n (_merge_splits cs ov (chars text) []).
Proof.
  intros Hn Hns. unfold _merge_splits.
  destruct (window_fold text Hn Hns _ window_init)
    as (w & Hcur & Htot & Hlen & Hw & Hfull & Hov & Hlast).
  rewrite Hcur. unfold _join_docs.
  rewrite join_nil, concat_chars, strip_no_space by assumption.
  destruct w as [|a w'].
  - split; [assumption | now apply full_but_last_all].
  - split; [now apply consecutive_overlap_snoc | now apply full_but_last_snoc].
Qed.

End Windows.

Lemma filter_truthy_chars (s : str) : List.filter truthy (chars s) = chars s.
Proof. induction s as [|c s IH]; simpl; [reflexivity | now rewrite IH]. Qed.

Lemma chars_short (n : nat) (s : str) :
  (1 < n)%nat -> Forall (fun p => len p < Z.of_nat n) (chars s).
Proof.
  intros Hn. induction s as [|c s IH]; simpl; constructor; [| exact IH].
  unfold len. simpl. lia.
Qed.

Lemma split_text_unbroken (n k : nat) (text : str) :
  (1 < n)%nat ->
  no_space text ->
  split_text (Z.of_nat n) (Z.of_nat k) text
  = match text with
    | [] => []
    | _ :: _ => _merge_splits (Z.of_nat n) (Z.of_nat k) (chars text) []
    end.
Proof.
  intros Hn Hns. unfold split_text, default_separators.
  cbn [_split_text].
  rewrite !contains_space_false by (reflexivity || assumption).
  unfold _split_text_with_regex. rewrite filter_truthy_chars.
  rewrite split_loop_short by now apply chars_short.
  simpl app. now destruct text.
Qed.

Lemma short_text_single_stripped_chunk_witness :
  len Scenario.biography_line < 1000
  /\ strip Scenario.biography_line <> []
  /\ split_text 1000 200 Scenario.biography_line = [lit Scenario.biography].
Proof.
  assert (len Scenario.biography_line < 1000) as Hlt by (vm_compute; reflexivity).
  assert (strip Scenario.biography_line <> []) as Hne by (vm_compute; discriminate).
  split; [exact Hlt | split; [exact Hne |]].
  exact (short_text_single_stripped_chunk 1000 200 Scenario.biography_line Hlt Hne).
Defined.

(** C4 as stated fails: the one-line biography file, newline included, is
    shorter than 1000 characters, yet its only chunk is not the whole
    text: the final newline is missing from it. *)
Lemma short_text_not_whole :
  ~ (forall text : str,
        text <> [] -> len text < 1000 -> split_text 1000 200 text = [text]).
Proof.
  intros H.
  specialize (H Scenario.biography_line).
  assert (List.map (@length char) (split_text 1000 200 Scenario.biography_line)
          = List.map (@length char) [Scenario.biography_line]) as E.
  { f_equal. apply H; [vm_compute; discriminate | vm_compute; reflexivity]. }
  vm_compute in E. discriminate E.
Qed.

(** A text of whitespace only yields no chunk at all. *)
Example blank_text_no_chunk : split_text 1000 200 (lit "   ") = [].
Proof. vm_compute. reflexivity. Qed.

(** C3 (amended): for a text without any whitespace character (no
    natural boundary, nothing to strip), the chunks produced with
    [chunk_size=1000] and [chunk_overlap=200] overlap their successor by
    exactly 200 characters, and every chunk but the last has exactly 1000
    characters (the last has at most 1000). *)
Theorem unbroken_text_overlaps_exactly (text : str) :
  no_space text ->
  consecutive_overlap 200 (split_text 1000 200 text)
  /\ full_but_last 1000 (split_text 1000 200 text).
Proof.
  intros Hns.
  change 1000 with (Z.of_nat 1000). change 200 with (Z.of_nat 200).
  rewrite split_text_unbroken by (lia || assumption).
  destruct text as [|c text'] eqn:E.
  - split; intros i c1; intros; discriminate.
  - rewrite <- E in *. apply merge_chars_windows; [lia | lia | assumption].
Qed.

(** C3 as stated fails: three blocks of 600 letters separated by single
    spaces are split at the spaces into three chunks that share no
    character; the first two, neither of them the final chunk, do not
    overlap by 200 characters. *)
Lemma boundaries_break_exact_overlap :
  ~ overlap_before_final 200 (split_text 1000 200 Scenario.three_blocks).
Proof.
  intros H.
  assert (split_text 1000 200 Scenario.three_blocks
          = [repeat 97%N 600; repeat 98%N 600; repeat 99%N 600]) as E
    by (vm_compute; reflexivity).
  rewrite E in H.
  destruct (H 0%nat _ _ eq_refl eq_refl) as (_ & _ & Heq); [simpl; lia |].
  vm_compute in Heq. discriminate Heq.
Qed.

Lemma unbroken_text_overlaps_exactly_witness :
  no_space Scenario.unbroken
  /\ consecutive_overlap 200 (split_text 1000 200 Scenario.unbroken)
  /\ full_but_last 1000 (split_text 1000 200 Scenario.unbroken).
Proof.
  assert (no_space Scenario.unbroken) as Hns by (vm_compute; reflexivity).
  split; [exact Hns |].
  exact (unbroken_text_overlaps_exactly Scenario.unbroken Hns).
Defined.

Example unbroken_chunk_lengths :
  List.map (@length char) (split_text 1000 200 Scenario.unbroken)
  = [1000; 1000; 900]%nat.
Proof. vm_compute. reflexivity. Qed.

(* ===================================================================== *)
(** * Runs of the application *)
(* ===================================================================== *)

Section Runs.

Context {Vec : Type}.
Variable env : Env Vec.

Lemma get_text_content_state (file : option (list Byte.byte)) (s : State Vec) :
  state_after (get_text_content env file s) = s.
Proof.
  unfold get_text_content.
  destruct file as [bytes|].
  - now destruct (Utf8.decode bytes).
  - destruct (path_exists env _); [| reflexivity].
    now destruct (read_text env _).
Qed.

Lemma get_text_content_value (file : option (list Byte.byte)) (s s' : State Vec) :
  value (get_text_content env file s) = value (get_text_content env file s').
Proof.
  unfold get_text_content.
  destruct file as [bytes|].
  - now destruct (Utf8.decode bytes).
  - destruct (path_exists env _); [| reflexivity].
    now destruct (read_text env _).
Qed.

Lemma get_text_content_some (file : option (list Byte.byte)) (s : State Vec)
      (text : str) :
  value (get_text_content env file s) = Some text ->
  get_text_content env file s = (Some text, [], s).
Proof.
  unfold get_text_content.
  destruct file as [bytes|].
  - destruct (Utf8.decode bytes); intros H; inversion H; reflexivity.
  - destruct (path_exists env _); [| discriminate].
    destruct (read_text env _); intros H; inversion H; reflexivity.
Qed.

Lemma build_vector_store_hit (text key : str) (s : State Vec)
      (entry : option (FAISS Vec) * list Element) :
  resource_cache s !! text = Some entry ->
  build_vector_store env text key s = (fst entry, snd entry, s).
Proof.
  intros H. unfold build_vector_store, cache_resource. rewrite H.
  now destruct entry.
Qed.

Lemma get_rag_chain_ok (vs : FAISS Vec) (key : str) (s : State Vec) :
  chat_model_new env (llm_of key) = Ok tt ->
  get_rag_chain env vs key s = (Some (chain_of vs key), [], s).
Proof.
  intros H. unfold get_rag_chain. fold (llm_of key). now rewrite H.
Qed.

Lemma get_rag_chain_state (vs : FAISS Vec) (key : str) (s : State Vec) :
  state_after (get_rag_chain env vs key s) = s.
Proof. unfold get_rag_chain. now destruct (chat_model_new env _). Qed.

Lemma draw_messages_state (ms : list Message) (s : State Vec) :
  state_after (draw_messages ms s) = s.
Proof.
  revert s. induction ms as [|m ms IH]; intros s; [reflexivity |].
  simpl. unfold bind, chat_message, draw. simpl.
  specialize (IH s). destruct (draw_messages ms s) as [[u out] s'].
  simpl in *. exact IH.
Qed.

Lemma invoke_context (vs : FAISS Vec) (key q : str) (context : list Document)
      (v : Vec) (s : State Vec) :
  embed_query env (embedding_function vs) q = Ok v ->
  similarity_search env vs v = context ->
  invoke env (chain_of vs key) q s
  = (match chat_invoke env (llm_of key)
                       (compose_prompt (chain_of vs key) context q) with
     | Ok answer => Ok {| response_input := q;
                          response_context := context;
                          response_answer := answer |}
     | Raise e => Raise e
     end,
     [],
     log_generator_call
       (llm_of key, compose_prompt (chain_of vs key) context q)
       (log_embedder_call (EmbedQuery (embedding_function vs) q) s)).
Proof.
  intros Hq Hs. unfold invoke, bind, modify, ret. simpl.
  rewrite Hq, Hs.
  now destruct (chat_invoke env _ _).
Qed.

Lemma bind_run {A B} (m : M Vec A) (k : A -> M Vec B) (s s1 : State Vec)
      (a : A) (out : list Element) :
  m s = (a, out, s1) ->
  bind m k s = (value (k a s1), out ++ drawn (k a s1), state_after (k a s1)).
Proof.
  intros H. unfold bind. rewrite H. now destruct (k a s1) as [[b out2] s2].
Qed.

Lemma init_messages_run (s : State Vec) :
  init_messages s = (tt, [], set_messages (Some (history s)) s).
Proof.
  unfold init_messages, history. destruct s as [[ms|] ? ? ?]; reflexivity.
Qed.

Lemma replay_messages_run (s : State Vec) :
  replay_messages s = (tt, drawn (replay_messages s), s).
Proof.
  unfold replay_messages.
  pose proof (draw_messages_state
                (match messages s with Some ms => ms | None => [] end) s) as H.
  destruct (draw_messages _ s) as [[[] out] s1]. simpl in H. now subst s1.
Qed.

(** The run of [main] in a ready session with a question: the question
    goes through [ask] with the chain of the cached index. *)
Lemma main_ready (w : Widgets) (s : State Vec) (text : str) (vs : FAISS Vec)
      (q : str) (context : list Document) :
  Ready env w s text vs ->
  Asked env w vs q context ->
  exists before,
    main env w s
    = (tt,
       before ++ drawn (ask env (Some (chain_of vs (api_key w))) q
                            (set_messages (Some (history s)) s)),
       state_after (ask env (Some (chain_of vs (api_key w))) q
                        (set_messages (Some (history s)) s))).
Proof.
  intros (Hkey & _ & Htext & Htruthy & elements & Hcache)
         (Hin & Hq & Hllm & _).
  unfold main. rewrite Hkey. cbn [negb].
  rewrite (bind_run _ _ _ _ _ _ (get_text_content_some _ _ _ Htext)).
  destruct text as [|c text]; [discriminate |].
  rewrite (bind_run _ _ _ _ _ _ (build_vector_store_hit _ _ _ _ Hcache)).
  cbn [fst snd].
  rewrite (bind_run _ _ _ _ _ _ (get_rag_chain_ok _ _ _ Hllm)).
  rewrite (bind_run _ _ _ _ _ _ (init_messages_run _)).
  rewrite (bind_run _ _ _ _ _ _ (replay_messages_run _)).
  rewrite Hin. destruct q as [|c' q']; [discriminate |].
  cbn [value drawn state_after fst snd].
  destruct (ask env _ _ _) as [[[] out'] s'].
  cbn [fst snd app]. rewrite app_assoc. eexists. reflexivity.
Qed.

Lemma ask_answered (vs : FAISS Vec) (key q : str) (context : list Document)
      (v : Vec) (answer : str) (s : State Vec) :
  embed_query env (embedding_function vs) q = Ok v ->
  similarity_search env vs v = context ->
  chat_invoke env (llm_of key) (compose_prompt (chain_of vs key) context q)
  = Ok answer ->
  ask env (Some (chain_of vs key)) q s
  = (tt,
     [ChatMessage (lit "user") [Markdown q];
      ChatMessage (lit "assistant") [Markdown answer]],
     append_message (assistant_turn answer)
       (log_generator_call
          (llm_of key, compose_prompt (chain_of vs key) context q)
          (log_embedder_call (EmbedQuery (embedding_function vs) q)
             (append_message (user_turn q) s)))).
Proof.
  intros Hq Hs Hgen. unfold ask, bind, modify, chat_message, draw. simpl.
  rewrite (invoke_context _ _ _ _ _ _ Hq Hs), Hgen. reflexivity.
Qed.

Lemma ask_failed (vs : FAISS Vec) (key q : str) (context : list Document)
      (v : Vec) (e : str) (s : State Vec) :
  embed_query env (embedding_function vs) q = Ok v ->
  similarity_search env vs v = context ->
  chat_invoke env (llm_of key) (compose_prompt (chain_of vs key) context q)
  = Raise e ->
  ask env (Some (chain_of vs key)) q s
  = (tt,
     [ChatMessage (lit "user") [Markdown q];
      ChatMessage (lit "assistant")
        [Error (lit "An error occurred during generation: " ++ e)]],
     log_generator_call
       (llm_of key, compose_prompt (chain_of vs key) context q)
       (log_embedder_call (EmbedQuery (embedding_function vs) q)
          (append_message (user_turn q) s))).
Proof.
  intros Hq Hs Hgen. unfold ask, bind, modify, chat_message, draw. simpl.
  rewrite (invoke_context _ _ _ _ _ _ Hq Hs), Hgen. reflexivity.
Qed.

(** C8: when a question is asked in a ready session and the chat model
    answers, exactly two turns are appended to the message list, in this
    order: the user turn holding the question, then the assistant turn
    holding the answer; the turns already there are unchanged. *)
Theorem answered_query_appends_two_turns (w : Widgets) (s : State Vec)
        (text : str) (vs : FAISS Vec) (q : str) (context : list Document)
        (answer : str) :
  Ready env w s text vs ->
  Asked env w vs q context ->
  chat_invoke env (llm_of (api_key w))
              (compose_prompt (chain_of vs (api_key w)) context q)
  = Ok answer ->
  messages (state_after (script env w s))
  = Some (history s ++ [user_turn q; assistant_turn answer]).
Proof.
  intros Hready Hasked Hgen.
  destruct (main_ready w s text vs q context Hready Hasked) as [before Hmain].
  destruct Hready as (_ & Hclear & _).
  destruct Hasked as (_ & _ & _ & v & Hq & Hs).
  unfold script. rewrite Hclear. unfold page, bind, draw.
  rewrite Hmain. cbn [state_after snd].
  rewrite (ask_answered _ _ _ _ _ _ _ Hq Hs Hgen).
  cbn. unfold history. cbn. now rewrite <- app_assoc.
Qed.

(** C1 (amended): when a question is asked in a ready session and the
    chat model call fails, the failure is shown as an error inside the
    assistant's chat message; the user turn, appended before the call, is
    kept, no assistant turn is appended, and the cached index is
    untouched. *)
Theorem generator_failure_keeps_user_turn (w : Widgets) (s : State Vec)
        (text : str) (vs : FAISS Vec) (q : str) (context : list Document)
        (e : str) :
  Ready env w s text vs ->
  Asked env w vs q context ->
  chat_invoke env (llm_of (api_key w))
              (compose_prompt (chain_of vs (api_key w)) context q)
  = Raise e ->
  messages (state_after (script env w s)) = Some (history s ++ [user_turn q])
  /\ last (drawn (script env w s))
     = Some (ChatMessage (lit "assistant")
               [Error (lit "An error occurred during generation: " ++ e)])
  /\ resource_cache (state_after (script env w s)) = resource_cache s.
Proof.
  intros Hready Hasked Hgen.
  destruct (main_ready w s text vs q context Hready Hasked) as [before Hmain].
  destruct Hready as (_ & Hclear & _).
  destruct Hasked as (_ & _ & _ & v & Hq & Hs).
  unfold script. rewrite Hclear. unfold page, bind, draw.
  rewrite Hmain. cbn [state_after drawn fst snd].
  rewrite (ask_failed _ _ _ _ _ _ _ Hq Hs Hgen).
  cbn [state_after drawn fst snd].
  split_and!.
  - reflexivity.
  - rewrite !app_assoc, last_app. reflexivity.
  - reflexivity.
Qed.

(** *** Building the index *)

Lemma split_documents_single (text : str) (meta : list (str * str)) :
  List.map page_content
           (split_documents [ {| page_content := text; metadata := meta |} ])
  = split_text 1000 200 text.
Proof.
  unfold split_documents. cbn [List.flat_map page_content metadata].
  rewrite app_nil_r, List.map_map. cbn [page_content]. apply List.map_id.
Qed.

Lemma from_documents_frame (documents : list Document) (e : Embeddings)
      (s : State Vec) :
  state_after (from_documents env documents e s)
  = log_embedder_call (EmbedDocuments e (List.map page_content documents)) s.
Proof.
  unfold from_documents, bind, modify, ret.
  destruct (embed_documents env e _) as [[|v vs]|err]; reflexivity.
Qed.

(** What an actual run of the body of [build_vector_store] does to the
    state: nothing, or one call of [embed_documents] on the chunks. *)
Lemma build_body_state (text key : str) (s : State Vec) :
  state_after (build_vector_store_body env text key s)
  = if truthy text
    then match embeddings_new env (embeddings_of key) with
         | Ok _ => log_embedder_call
                     (EmbedDocuments (embeddings_of key)
                                     (split_text 1000 200 text)) s
         | Raise _ => s
         end
    else s.
Proof.
  unfold build_vector_store_body. fold (embeddings_of key).
  destruct (truthy text); [| reflexivity]. cbn [negb].
  destruct (embeddings_new env (embeddings_of key)) as [[]|err].
  - unfold bind.
    pose proof (from_documents_frame
                  (split_documents
                     [ {| page_content := text;
                          metadata := [(lit "source", lit "biography")] |} ])
                  (embeddings_of key) s) as H.
    rewrite split_documents_single in H.
    destruct (from_documents env _ _ s) as [[[vs|err] out] s1];
      simpl in H; subst s1; reflexivity.
  - reflexivity.
Qed.

Lemma build_miss (text key : str) (s : State Vec) :
  resource_cache s !! text = None ->
  build_vector_store env text key s
  = (value (build_vector_store_body env text key s),
     drawn (build_vector_store_body env text key s),
     set_resource_cache
       (<[text := (value (build_vector_store_body env text key s),
                   drawn (build_vector_store_body env text key s))]>
          (resource_cache (state_after (build_vector_store_body env text key s))))
       (state_after (build_vector_store_body env text key s))).
Proof.
  intros H. unfold build_vector_store, cache_resource. rewrite H.
  now destruct (build_vector_store_body env text key s) as [[v out] s1].
Qed.

Lemma build_body_cache (text key : str) (s : State Vec) :
  resource_cache (state_after (build_vector_store_body env text key s))
  = resource_cache s.
Proof.
  rewrite build_body_state.
  destruct (truthy text); [| reflexivity].
  now destruct (embeddings_new env _).
Qed.

(** After a call the cache holds what the call returned. *)
Lemma build_cached_after (text key : str) (s : State Vec) :
  resource_cache (state_after (build_vector_store env text key s)) !! text
  = Some (value (build_vector_store env text key s),
          drawn (build_vector_store env text key s)).
Proof.
  destruct (resource_cache s !! text) as [[v out]|] eqn:E.
  - rewrite (build_vector_store_hit _ _ _ _ E). exact E.
  - rewrite (build_miss _ _ _ E). cbn [state_after value drawn fst snd].
    unfold set_resource_cache. cbn [resource_cache].
    apply lookup_insert_eq.
Qed.

(** C2 (amended): the index build is memoized on the document content
    alone; the API key is not part of the cache key.  A second call with
    the same content returns the first result and leaves the state as it
    is, whatever key it is given, so the chunks are embedded by one call of
    [embed_documents], once; a call with a content that is not yet cached
    runs a fresh build that embeds the chunks of that content. *)
Theorem build_memoized_on_content_only (text text' key1 key2 : str)
        (s : State Vec) :
  let first := build_vector_store env text key1 s in
  let again := build_vector_store env text key2 (state_after first) in
  let other := build_vector_store env text' key2 (state_after again) in
  (value again = value first /\ state_after again = state_after first)
  /\ (resource_cache s !! text = None ->
      truthy text = true ->
      embeddings_new env (embeddings_of key1) = Ok tt ->
      embedder_calls (state_after first)
      = embedder_calls s
        ++ [EmbedDocuments (embeddings_of key1) (split_text 1000 200 text)])
  /\ (resource_cache (state_after again) !! text' = None ->
      truthy text' = true ->
      embeddings_new env (embeddings_of key2) = Ok tt ->
      embedder_calls (state_after other)
      = embedder_calls (state_after again)
        ++ [EmbedDocuments (embeddings_of key2) (split_text 1000 200 text')]).
Proof.
  intros first again other.
  assert (forall t k s0,
             resource_cache s0 !! t = None -> truthy t = true ->
             embeddings_new env (embeddings_of k) = Ok tt ->
             embedder_calls (state_after (build_vector_store env t k s0))
             = embedder_calls s0
               ++ [EmbedDocuments (embeddings_of k) (split_text 1000 200 t)])
    as Hfresh.
  { intros t k s0 Hmiss Ht Hnew. rewrite (build_miss _ _ _ Hmiss).
    cbn [state_after snd]. unfold set_resource_cache. cbn [embedder_calls].
    rewrite build_body_state, Ht, Hnew. reflexivity. }
  split_and!.
  - subst again. now rewrite (build_vector_store_hit _ _ _ _ (build_cached_after text key1 s)).
  - subst again. now rewrite (build_vector_store_hit _ _ _ _ (build_cached_after text key1 s)).
  - apply Hfresh.
  - apply Hfresh.
Qed.

(** *** Loading the document *)

(** The run of the script when no usable document text is obtained. *)
Lemma script_without_document (w : Widgets) (s : State Vec) :
  truthy (api_key w) = true ->
  clear_chat_history w = false ->
  match value (get_text_content env (uploaded_file w) s) with
  | Some (_ :: _) => False
  | _ => True
  end ->
  script env w s
  = (tt,
     [ Title ([128100%N] ++ lit " Samuel's Interactive Biography");
       Markdown (lit "Upload a biography (text file) and ask questions to chat with it.") ]
     ++ drawn (get_text_content env (uploaded_file w) s)
     ++ [ Info (lit "Please upload a .txt file or create a 'biography.txt' file in the app directory.") ],
     s).
Proof.
  intros Hkey Hclear Hnone.
  unfold script. rewrite Hclear. unfold page, main. rewrite Hkey. cbn [negb].
  pose proof (get_text_content_state (uploaded_file w) s) as Hst.
  unfold bind, draw.
  destruct (get_text_content env (uploaded_file w) s) as [[t out] s1].
  cbn [value drawn state_after fst snd] in *. subst s1.
  destruct t as [[|c t]|]; [| contradiction |]; reflexivity.
Qed.

(** C5: for an empty document the run shows the notice asking for a
    document and stops before the index build: no embedding call is made,
    nothing is cached, and the state is left as it was; the build function
    itself returns [None] for the empty text without embedding anything. *)
Theorem empty_document_builds_no_index (w : Widgets) (s : State Vec) (key : str) :
  truthy (api_key w) = true ->
  clear_chat_history w = false ->
  value (get_text_content env (uploaded_file w) s) = Some [] ->
  script env w s
  = (tt,
     [ Title ([128100%N] ++ lit " Samuel's Interactive Biography");
       Markdown (lit "Upload a biography (text file) and ask questions to chat with it.");
       Info (lit "Please upload a .txt file or create a 'biography.txt' file in the app directory.") ],
     s)
  /\ build_vector_store_body env [] key s = (None, [], s).
Proof.
  intros Hkey Hclear Hempty. split; [| reflexivity].
  rewrite script_without_document by (assumption || now rewrite Hempty).
  now rewrite (get_text_content_some _ _ _ Hempty).
Qed.

(** C10: without an upload, [get_text_content] reads [biography.txt] when
    that path exists and returns nothing otherwise; when the read fails,
    or when the bytes of an upload are not valid UTF-8, it shows an error
    and returns [None]; the run then goes on as when no document is
    supplied: it ends with the notice asking for a document and the state
    is unchanged. *)
Theorem document_loading_fallback_and_failure (s : State Vec) :
  (forall text,
      path_exists env (lit "biography.txt") = true ->
      read_text env (lit "biography.txt") = Ok text ->
      get_text_content env None s = (Some text, [], s))
  /\ (path_exists env (lit "biography.txt") = false ->
      get_text_content env None s = (None, [], s))
  /\ (forall e,
      path_exists env (lit "biography.txt") = true ->
      read_text env (lit "biography.txt") = Raise e ->
      get_text_content env None s
      = (None, [Error (lit "Error reading file: " ++ e)], s))
  /\ (forall bytes,
      Utf8.decode_points bytes = None ->
      exists e,
        get_text_content env (Some bytes) s
        = (None, [Error (lit "Error reading file: " ++ e)], s))
  /\ (forall w,
      truthy (api_key w) = true ->
      clear_chat_history w = false ->
      value (get_text_content env (uploaded_file w) s) = None ->
      state_after (script env w s) = s
      /\ last (drawn (script env w s))
         = Some (Info (lit "Please upload a .txt file or create a 'biography.txt' file in the app directory."))).
Proof.
  split_and!.
  - intros text Hex Hread. unfold get_text_content. now rewrite Hex, Hread.
  - intros Hex. unfold get_text_content. now rewrite Hex.
  - intros e Hex Hread. unfold get_text_content. now rewrite Hex, Hread.
  - intros bytes Hbad. eexists. unfold get_text_content, Utf8.decode.
    rewrite Hbad. reflexivity.
  - intros w Hkey Hclear Hnone.
    rewrite script_without_document by (assumption || now rewrite Hnone).
    cbn [state_after drawn fst snd]. split; [reflexivity |].
    now rewrite !last_app.
Qed.

End Runs.

(* ===================================================================== *)
(** * The prompt *)
(* ===================================================================== *)

Section Prompts.

Lemma format_go_plain (vars : list (str * str)) (pre rest : str) :
  plain pre ->
  format_go vars None (pre ++ rest) = pre ++ format_go vars None rest.
Proof.
  unfold plain. induction pre as [|c pre IH]; intros H; [reflexivity |].
  simpl in H. apply andb_true_iff in H as [Hc Hpre].
  apply negb_true_iff in Hc. simpl. rewrite Hc. f_equal. now apply IH.
Qed.

Lemma system_prompt_split : system_prompt = instruction ++ lit "{context}".
Proof. unfold system_prompt, instruction. now rewrite <- !app_assoc. Qed.

Lemma format_system_prompt (input context : str) :
  format system_prompt [(lit "input", input); (lit "context", context)]
  = instruction ++ context.
Proof.
  rewrite system_prompt_split. unfold format.
  rewrite format_go_plain by (vm_compute; reflexivity).
  f_equal.
  set (field := lit "{context}"). vm_compute in field. subst field.
  set (name1 := lit "input"). vm_compute in name1. subst name1.
  set (name2 := lit "context"). vm_compute in name2. subst name2.
  simpl. now rewrite app_nil_r.
Qed.

Lemma format_human (input context : str) :
  format (lit "{input}") [(lit "input", input); (lit "context", context)]
  = input.
Proof.
  unfold format.
  set (field := lit "{input}"). vm_compute in field. subst field.
  set (name1 := lit "input"). vm_compute in name1. subst name1.
  simpl. now rewrite app_nil_r.
Qed.

Lemma compose_prompt_eq {Vec} (vs : FAISS Vec) (key : str)
      (context : list Document) (input : str) :
  compose_prompt (chain_of vs key) context input
  = [ (lit "system", instruction ++ format_docs context);
      (lit "human", input) ].
Proof.
  unfold compose_prompt, chain_of, format_messages, prompt.
  cbn [chain_prompt List.map fst snd].
  now rewrite format_system_prompt, format_human.
Qed.

Lemma occur_in_order_join (sep : str) (texts : list str) :
  occur_in_order texts (join sep texts).
Proof.
  induction texts as [|t [|t' rest] IH].
  - exact I.
  - exists [], []. simpl. split; [now rewrite app_nil_r | exact I].
  - exists [], (sep ++ join sep (t' :: rest)). split; [reflexivity |].
    simpl in IH. destruct IH as (b & a & Hba & Hrest).
    exists (sep ++ b), a. split; [| exact Hrest].
    cbn [join] in Hba |- *. rewrite Hba. now rewrite <- app_assoc.
Qed.

Lemma occur_in_order_prefix (pre : str) (texts : list str) (s : str) :
  occur_in_order texts s -> occur_in_order texts (pre ++ s).
Proof.
  destruct texts as [|t rest]; [trivial |].
  intros (b & a & Hs & Hrest). exists (pre ++ b), a.
  split; [| exact Hrest]. rewrite Hs. now rewrite <- app_assoc.
Qed.

Lemma grounding_rule_in_instruction : occurs grounding_rule instruction.
Proof.
  exists (lit "You are an AI assistant representing the person described in the context. "
          ++ lit "Answer questions as if you are that person. "
          ++ lit "Use the following pieces of retrieved context to answer the question. "),
         [10%N; 10%N].
  vm_compute. reflexivity.
Qed.

End Prompts.

(** C6: the prompt built for a query and a retrieval result has two
    messages: the system message, which is the fixed instruction (grounding
    rule included) followed by the texts of the retrieved documents joined
    by blank lines in retrieval order, and the human message, which is the
    query itself.  This holds for an empty retrieval result too. *)
Theorem prompt_holds_query_context_and_rule {Vec} (vs : FAISS Vec) (key : str)
        (retrieved : list Document) (query : str) :
  exists system_text,
    compose_prompt (chain_of vs key) retrieved query
    = [ (lit "system", system_text); (lit "human", query) ]
    /\ system_text = instruction ++ join [10%N; 10%N] (List.map page_content retrieved)
    /\ occurs grounding_rule system_text
    /\ occur_in_order (List.map page_content retrieved) system_text.
Proof.
  exists (instruction ++ format_docs retrieved).
  split_and!.
  - apply compose_prompt_eq.
  - reflexivity.
  - destruct grounding_rule_in_instruction as (b & a & H).
    exists b, (a ++ format_docs retrieved). rewrite H.
    now rewrite <- !app_assoc.
  - apply occur_in_order_prefix, occur_in_order_join.
Qed.

(* ===================================================================== *)
(** * Independence from the conversation *)
(* ===================================================================== *)

Section Blind.

Context {Vec : Type}.
Variable env : Env Vec.

Lemma same_calls_refl (s1 s2 : State Vec) : same_calls s1 s1 s2 s2.
Proof. exists [], []. now rewrite !app_nil_r. Qed.

Lemma same_calls_trans (s1 s1' s1'' s2 s2' s2'' : State Vec) :
  same_calls s1 s1' s2 s2' -> same_calls s1' s1'' s2' s2'' ->
  same_calls s1 s1'' s2 s2''.
Proof.
  intros (de & dg & E1 & E2 & G1 & G2) (de' & dg' & E1' & E2' & G1' & G2').
  exists (de ++ de'), (dg ++ dg').
  rewrite E1', E2', G1', G2', E1, E2, G1, G2. now rewrite <- !app_assoc.
Qed.

Lemma blind_ret {A} (a : A) : history_blind (Vec:=Vec) (ret a).
Proof. intros s1 s2 H. split_and!; [reflexivity | exact H | apply same_calls_refl]. Qed.

Lemma blind_bind {A B} (m : M Vec A) (k : A -> M Vec B) :
  history_blind m -> (forall a, history_blind (k a)) -> history_blind (bind m k).
Proof.
  intros Hm Hk s1 s2 H. unfold bind.
  destruct (Hm s1 s2 H) as (Hv & Ha & Hc).
  destruct (m s1) as [[a1 o1] t1], (m s2) as [[a2 o2] t2].
  cbn [value state_after fst snd] in *. subst a2.
  destruct (Hk a1 t1 t2 Ha) as (Hv' & Ha' & Hc').
  destruct (k a1 t1) as [[b1 p1] u1], (k a1 t2) as [[b2 p2] u2].
  cbn [value state_after fst snd] in *.
  split_and!; [assumption | assumption |].
  eapply same_calls_trans; eassumption.
Qed.

Lemma blind_draw (e : Element) : history_blind (Vec:=Vec) (draw e).
Proof. intros s1 s2 H. split_and!; [reflexivity | exact H | apply same_calls_refl]. Qed.

Lemma blind_set_messages (f : State Vec -> option (list Message)) :
  history_blind (modify (fun s => set_messages (f s) s)).
Proof.
  intros s1 s2 H. split_and!; [reflexivity | exact H |].
  exists [], []. cbn. now rewrite !app_nil_r.
Qed.

Lemma blind_log_embedder_call (c : EmbedCall) :
  history_blind (Vec:=Vec) (modify (log_embedder_call c)).
Proof.
  intros s1 s2 H. split_and!; [reflexivity | exact H |].
  exists [c], []. cbn. now rewrite !app_nil_r.
Qed.

Lemma blind_log_generator_call (c : ChatModel * Prompt) :
  history_blind (Vec:=Vec) (modify (log_generator_call c)).
Proof.
  intros s1 s2 H. split_and!; [reflexivity | exact H |].
  exists [], [c]. cbn. now rewrite !app_nil_r.
Qed.

Lemma blind_chat_message {A} (name : str) (body : M Vec A) :
  history_blind body -> history_blind (chat_message name body).
Proof.
  intros Hb s1 s2 H. unfold chat_message.
  specialize (Hb s1 s2 H).
  destruct (body s1) as [[a1 o1] t1], (body s2) as [[a2 o2] t2]. exact Hb.
Qed.

Lemma blind_unchanged {A} (m : M Vec A) :
  (forall s, state_after (m s) = s) ->
  (forall s s', value (m s) = value (m s')) ->
  history_blind m.
Proof.
  intros Hst Hv s1 s2 H. rewrite !Hst.
  split_and!; [apply Hv | exact H | apply same_calls_refl].
Qed.

Lemma blind_init_messages : history_blind (Vec:=Vec) init_messages.
Proof.
  intros s1 s2 H. unfold init_messages.
  destruct (messages s1), (messages s2);
    (split_and!; [reflexivity | exact H |]);
    exists [], []; cbn; now rewrite !app_nil_r.
Qed.

Lemma blind_replay_messages : history_blind (Vec:=Vec) replay_messages.
Proof.
  intros s1 s2 H.
  rewrite (replay_messages_run s1), (replay_messages_run s2).
  split_and!; [reflexivity | exact H | apply same_calls_refl].
Qed.

Lemma blind_get_text_content (file : option (list Byte.byte)) :
  history_blind (get_text_content env file).
Proof.
  apply blind_unchanged.
  - apply get_text_content_state.
  - apply get_text_content_value.
Qed.

Lemma blind_get_rag_chain (vs : FAISS Vec) (key : str) :
  history_blind (get_rag_chain env vs key).
Proof.
  apply blind_unchanged; intros; unfold get_rag_chain;
    now destruct (chat_model_new env _).
Qed.

(** The outcome of the body of [build_vector_store] apart from the state. *)
Lemma build_body_result (text key : str) (s s' : State Vec) :
  value (build_vector_store_body env text key s)
  = value (build_vector_store_body env text key s')
  /\ drawn (build_vector_store_body env text key s)
     = drawn (build_vector_store_body env text key s').
Proof.
  unfold build_vector_store_body.
  destruct (truthy text); cbn [negb]; [| now split].
  destruct (embeddings_new env _) as [[]|err]; [| now split].
  unfold bind, from_documents, modify, ret.
  destruct (embed_documents env _ _) as [[|v vs]|err]; now split.
Qed.

Lemma blind_build_vector_store (text key : str) :
  history_blind (build_vector_store env text key).
Proof.
  intros s1 s2 H. unfold agree in H.
  destruct (resource_cache s1 !! text) as [entry|] eqn:E1.
  - assert (resource_cache s2 !! text = Some entry) as E2 by now rewrite <- H.
    rewrite (build_vector_store_hit _ _ _ _ _ E1),
            (build_vector_store_hit _ _ _ _ _ E2).
    split_and!; [reflexivity | exact H | apply same_calls_refl].
  - assert (resource_cache s2 !! text = None) as E2 by now rewrite <- H.
    rewrite (build_miss _ _ _ _ E1), (build_miss _ _ _ _ E2).
    destruct (build_body_result text key s1 s2) as [Hv Hd].
    cbn [value state_after fst snd].
    split_and!.
    + exact Hv.
    + unfold agree, set_resource_cache. cbn [resource_cache].
      now rewrite !build_body_cache, Hv, Hd, H.
    + unfold set_resource_cache. rewrite !build_body_state.
      destruct (truthy text); [| exists [], []; cbn; now rewrite !app_nil_r].
      destruct (embeddings_new env _);
        [| exists [], []; cbn; now rewrite !app_nil_r].
      eexists [_], []. cbn. rewrite !app_nil_r. now split_and!.
Qed.

Lemma blind_invoke (chain : Chain Vec) (input : str) :
  history_blind (invoke env chain input).
Proof.
  unfold invoke.
  apply blind_bind; [apply blind_log_embedder_call | intros _].
  destruct (embed_query env _ _); [| apply blind_ret].
  apply blind_bind; [apply blind_log_generator_call | intros _].
  destruct (chat_invoke env _ _); apply blind_ret.
Qed.

Lemma blind_append_message (m : Message) :
  history_blind (Vec:=Vec) (modify (append_message m)).
Proof.
  intros s1 s2 H. split_and!; [reflexivity | exact H |].
  exists [], []. cbn. now rewrite !app_nil_r.
Qed.

Lemma blind_ask (rag_chain : option (Chain Vec)) (user_input : str) :
  history_blind (ask env rag_chain user_input).
Proof.
  unfold ask.
  apply blind_bind; [apply blind_append_message | intros _].
  apply blind_bind; [apply blind_chat_message, blind_draw | intros _].
  apply blind_chat_message.
  apply blind_bind.
  - destruct rag_chain; [apply blind_invoke | apply blind_ret].
  - intros [r|e]; [| apply blind_draw].
    apply blind_bind; [apply blind_draw | intros _].
    apply blind_append_message.
Qed.

Lemma blind_main (w : Widgets) : history_blind (main env w).
Proof.
  unfold main.
  destruct (negb (truthy (api_key w))); [apply blind_draw |].
  apply blind_bind; [apply blind_get_text_content | intros [[|c text]|]];
    try apply blind_draw.
  apply blind_bind; [apply blind_build_vector_store | intros [vs|]];
    [| apply blind_ret].
  apply blind_bind; [apply blind_get_rag_chain | intros rag_chain].
  apply blind_bind; [apply blind_init_messages | intros _].
  apply blind_bind; [apply blind_replay_messages | intros _].
  destruct (chat_input w) as [[|c' q]|]; try apply blind_ret.
  apply blind_ask.
Qed.

Lemma blind_script (w : Widgets) : history_blind (script env w).
Proof.
  assert (forall w', history_blind (page env w')) as Hpage.
  { intros w'. unfold page.
    apply blind_bind; [apply blind_draw | intros _].
    apply blind_bind; [apply blind_draw | intros _].
    apply blind_main. }
  intros s1 s2 H. unfold script.
  destruct (clear_chat_history w); [| now apply Hpage].
  destruct (Hpage (after_rerun w) (set_messages (Some []) s1)
                  (set_messages (Some []) s2) H) as (Hv & Ha & Hc).
  split_and!; [exact Hv | exact Ha | exact Hc].
Qed.

End Blind.

(** C9: two sessions with the same cache of built indexes, run with the
    same widget values (same key, document and question), pass the same
    inputs to the chat model, whatever their message lists are. *)
Theorem generator_input_independent_of_history {Vec} (env : Env Vec)
        (w : Widgets) (s1 s2 : State Vec) :
  resource_cache s1 = resource_cache s2 ->
  exists calls,
    generator_calls (state_after (script env w s1)) = generator_calls s1 ++ calls
    /\ generator_calls (state_after (script env w s2)) = generator_calls s2 ++ calls.
Proof.
  intros H.
  destruct (blind_script env w s1 s2 H) as (_ & _ & de & dg & _ & _ & G1 & G2).
  now exists dg.
Qed.

(* ===================================================================== *)
(** * Clearing the conversation *)
(* ===================================================================== *)

Section Reset.

Context {Vec : Type}.
Variable env : Env Vec.

Lemma no_document_embedding_nil : no_document_embedding [].
Proof. intros c []. Qed.

Lemma no_document_embedding_app (a b : list EmbedCall) :
  no_document_embedding a -> no_document_embedding b ->
  no_document_embedding (a ++ b).
Proof.
  intros Ha Hb c Hin. apply in_app_or in Hin as [H|H]; [now apply Ha | now apply Hb].
Qed.

Lemma query_only_same {A} (m : M Vec A) :
  (forall s, resource_cache (state_after (m s)) = resource_cache s) ->
  (forall s, embedder_calls (state_after (m s)) = embedder_calls s) ->
  query_only m.
Proof.
  intros Hc He s. split; [apply Hc |].
  exists []. rewrite app_nil_r. split; [apply He | apply no_document_embedding_nil].
Qed.

Lemma query_only_bind {A B} (m : M Vec A) (k : A -> M Vec B) :
  query_only m -> (forall a, query_only (k a)) -> query_only (bind m k).
Proof.
  intros Hm Hk s. unfold bind.
  destruct (Hm s) as (Hc & calls & He & Hn).
  destruct (m s) as [[a o] t]. cbn [state_after snd] in *.
  destruct (Hk a t) as (Hc' & calls' & He' & Hn').
  destruct (k a t) as [[b o'] u]. cbn [state_after snd] in *.
  split; [congruence |].
  exists (calls ++ calls'). rewrite He', He, <- app_assoc.
  split; [reflexivity | now apply no_document_embedding_app].
Qed.

Lemma query_only_chat_message {A} (name : str) (body : M Vec A) :
  query_only body -> query_only (chat_message name body).
Proof.
  intros Hb s. unfold chat_message. specialize (Hb s).
  now destruct (body s) as [[a o] t].
Qed.

Lemma query_only_invoke (chain : Chain Vec) (input : str) :
  query_only (invoke env chain input).
Proof.
  intros s. unfold invoke, bind, modify, ret.
  assert (no_document_embedding
            [EmbedQuery (embedding_function (chain_retriever chain)) input])
    as Hq by (intros c [<-|[]]; exact I).
  destruct (embed_query env _ _) as [v|e]; [destruct (chat_invoke env _ _) |];
    (split; [reflexivity | eexists; split; [reflexivity | exact Hq]]).
Qed.

Lemma query_only_ask (rag_chain : option (Chain Vec)) (user_input : str) :
  query_only (ask env rag_chain user_input).
Proof.
  assert (forall m, query_only (Vec:=Vec) (modify (append_message m))) as Happend
    by (intros m; apply query_only_same; intros s; reflexivity).
  assert (forall e, query_only (Vec:=Vec) (draw e)) as Hdraw
    by (intros e; apply query_only_same; intros s; reflexivity).
  unfold ask.
  apply query_only_bind; [apply Happend | intros _].
  apply query_only_bind;
    [apply query_only_chat_message, Hdraw | intros _].
  apply query_only_chat_message.
  apply query_only_bind.
  - destruct rag_chain; [apply query_only_invoke |].
    apply query_only_same; intros s; reflexivity.
  - intros [r|e]; [| apply Hdraw].
    apply query_only_bind; [apply Hdraw | intros _; apply Happend].
Qed.

(** What [main] does after the index is obtained. *)
Lemma query_only_chat (w : Widgets) (vs : FAISS Vec) :
  query_only
    (bind (get_rag_chain env vs (api_key w))
          (fun rag_chain =>
             bind init_messages
                  (fun _ =>
                     bind replay_messages
                          (fun _ =>
                             match chat_input w with
                             | Some ((_ :: _) as user_input) =>
                                 ask env rag_chain user_input
                             | _ => ret tt
                             end)))).
Proof.
  apply query_only_bind.
  { apply query_only_same; intros s;
      now rewrite (get_rag_chain_state env). }
  intros rag_chain. apply query_only_bind.
  { apply query_only_same; intros s; now rewrite init_messages_run. }
  intros _. apply query_only_bind.
  { apply query_only_same; intros s; now rewrite replay_messages_run. }
  intros _. destruct (chat_input w) as [[|c q]|];
    try (apply query_only_same; intros s; reflexivity).
  apply query_only_ask.
Qed.

Lemma page_state (w : Widgets) (s : State Vec) :
  state_after (page env w s) = state_after (main env w s).
Proof.
  unfold page, bind, draw. now destruct (main env w s) as [[u out] s'].
Qed.

(** With the index of the loaded document in the cache, a run of [main]
    leaves the cache alone and embeds nothing but the question. *)
Lemma main_cached (w : Widgets) (s : State Vec) (text : str)
      (entry : option (FAISS Vec) * list Element) :
  value (get_text_content env (uploaded_file w) s) = Some text ->
  resource_cache s !! text = Some entry ->
  resource_cache (state_after (main env w s)) = resource_cache s
  /\ exists calls,
      embedder_calls (state_after (main env w s)) = embedder_calls s ++ calls
      /\ no_document_embedding calls.
Proof.
  intros Htext Hcache.
  assert (forall (u : unit) (out : list Element),
             resource_cache (state_after (u, out, s)) = resource_cache s
             /\ exists calls,
                 embedder_calls (state_after (u, out, s)) = embedder_calls s ++ calls
                 /\ no_document_embedding calls) as Hsame.
  { intros u out. split; [reflexivity |]. exists []. rewrite app_nil_r.
    split; [reflexivity | apply no_document_embedding_nil]. }
  unfold main. destruct (truthy (api_key w)); cbn [negb]; [| apply Hsame].
  rewrite (bind_run _ _ _ _ _ _ (get_text_content_some _ _ _ _ Htext)).
  cbn [state_after snd].
  destruct text as [|c text]; [apply Hsame |].
  rewrite (bind_run _ _ _ _ _ _ (build_vector_store_hit _ _ _ _ _ Hcache)).
  cbn [state_after snd].
  destruct (fst entry) as [vs|]; [| apply Hsame].
  apply (query_only_chat w vs s).
Qed.

(** Without a question, and on an initialised message list, such a run
    changes nothing. *)
Lemma main_idle (w : Widgets) (s : State Vec) (ms : list Message) (text : str)
      (entry : option (FAISS Vec) * list Element) :
  chat_input w = None ->
  messages s = Some ms ->
  value (get_text_content env (uploaded_file w) s) = Some text ->
  resource_cache s !! text = Some entry ->
  state_after (main env w s) = s.
Proof.
  intros Hin Hms Htext Hcache.
  unfold main. destruct (truthy (api_key w)); cbn [negb]; [| reflexivity].
  rewrite (bind_run _ _ _ _ _ _ (get_text_content_some _ _ _ _ Htext)).
  cbn [state_after snd].
  destruct text as [|c text]; [reflexivity |].
  rewrite (bind_run _ _ _ _ _ _ (build_vector_store_hit _ _ _ _ _ Hcache)).
  cbn [state_after snd].
  destruct (fst entry) as [vs|]; [| reflexivity].
  pose proof (get_rag_chain_state env vs (api_key w) s) as Hrc.
  unfold bind at 1.
  destruct (get_rag_chain env vs (api_key w) s) as [[rc out2] s2].
  cbn [state_after snd] in Hrc. subst s2.
  unfold bind at 1. rewrite init_messages_run.
  unfold bind at 1. rewrite replay_messages_run.
  rewrite Hin. cbn. unfold history. rewrite Hms.
  destruct s as [m c0 e g]. cbn in Hms. subst m. reflexivity.
Qed.

(** What calling [build_vector_store] leaves in place. *)
Lemma build_frame (text key : str) (s : State Vec) :
  messages (state_after (build_vector_store env text key s)) = messages s
  /\ generator_calls (state_after (build_vector_store env text key s))
     = generator_calls s
  /\ (forall t e,
         resource_cache s !! t = Some e ->
         resource_cache (state_after (build_vector_store env text key s)) !! t
         = Some e).
Proof.
  destruct (resource_cache s !! text) as [entry|] eqn:E.
  - rewrite (build_vector_store_hit _ _ _ _ _ E). now split_and!.
  - rewrite (build_miss _ _ _ _ E). cbn [state_after snd].
    unfold set_resource_cache. cbn [messages generator_calls resource_cache].
    rewrite build_body_cache, build_body_state.
    split_and!.
    + destruct (truthy text); [| reflexivity].
      now destruct (embeddings_new env _).
    + destruct (truthy text); [| reflexivity].
      now destruct (embeddings_new env _).
    + intros t e Ht. rewrite lookup_insert_ne; [exact Ht | congruence].
Qed.

Lemma state_after_bind {A B} (m : M Vec A) (k : A -> M Vec B) (s : State Vec) :
  state_after (bind m k s) = state_after (k (value (m s)) (state_after (m s))).
Proof.
  unfold bind. destruct (m s) as [[a o] s1]. cbn [value state_after fst snd].
  now destruct (k a s1) as [[b o2] s2].
Qed.

(** A run of [main] without a question, on an initialised message list. *)
Lemma main_quiet (w : Widgets) (s : State Vec) (ms : list Message) :
  chat_input w = None ->
  messages s = Some ms ->
  messages (state_after (main env w s)) = Some ms
  /\ generator_calls (state_after (main env w s)) = generator_calls s
  /\ (forall t e,
         resource_cache s !! t = Some e ->
         resource_cache (state_after (main env w s)) !! t = Some e).
Proof.
  intros Hin Hms. unfold main.
  destruct (truthy (api_key w)); cbn [negb]; [| now split_and!].
  rewrite state_after_bind, get_text_content_state.
  destruct (value (get_text_content env (uploaded_file w) s)) as [[|c text]|];
    [now split_and! | | now split_and!].
  rewrite state_after_bind.
  destruct (build_frame (c :: text) (api_key w) s) as (Bm & Bg & Bc).
  set (s1 := state_after (build_vector_store env (c :: text) (api_key w) s)) in *.
  destruct (value (build_vector_store env (c :: text) (api_key w) s)) as [vs|];
    [| cbn [ret state_after snd]; now rewrite Bm, Bg].
  rewrite state_after_bind, get_rag_chain_state.
  rewrite state_after_bind, init_messages_run. cbn [value state_after fst snd].
  rewrite state_after_bind, replay_messages_run. cbn [value state_after fst snd].
  rewrite Hin. cbn [ret state_after snd set_messages messages generator_calls resource_cache].
  unfold history. rewrite Bm, Hms. now rewrite Bg.
Qed.

(** C7: a click on "Clear Chat History" leaves an empty message list
    and makes no call to the chat model; every cached index stays cached.
    When the index of the loaded document is cached, the click changes
    nothing but the message list (no embedding call, same cache), and a
    later run on the same document leaves the cache as it is and makes no
    [embed_documents] call. *)
Theorem reset_clears_history_keeps_index (w : Widgets) (s : State Vec) :
  clear_chat_history w = true ->
  let s' := state_after (script env w s) in
  (messages s' = Some [] /\ history s' = [])
  /\ generator_calls s' = generator_calls s
  /\ (forall t e, resource_cache s !! t = Some e -> resource_cache s' !! t = Some e)
  /\ (forall text entry,
         value (get_text_content env (uploaded_file w) s) = Some text ->
         resource_cache s !! text = Some entry ->
         s' = set_messages (Some []) s
         /\ forall w2,
             uploaded_file w2 = uploaded_file w ->
             clear_chat_history w2 = false ->
             resource_cache (state_after (script env w2 s')) = resource_cache s
             /\ exists calls,
                 embedder_calls (state_after (script env w2 s'))
                 = embedder_calls s ++ calls
                 /\ no_document_embedding calls).
Proof.
  intros Hclear s'.
  assert (s' = state_after (main env (after_rerun w) (set_messages (Some []) s)))
    as Es' by (subst s'; unfold script; rewrite Hclear; apply page_state).
  destruct (main_quiet (after_rerun w) (set_messages (Some []) s) []
                       eq_refl eq_refl) as (Hm & Hg & Hc).
  rewrite <- Es' in Hm, Hg, Hc.
  split_and!.
  - exact Hm.
  - unfold history. now rewrite Hm.
  - exact Hg.
  - intros t e Ht. now apply Hc.
  - intros text entry Htext Hcache.
    assert (s' = set_messages (Some []) s) as Hs'.
    { rewrite Es'.
      apply (main_idle (after_rerun w) (set_messages (Some []) s) [] text entry);
        [reflexivity | reflexivity | | exact Hcache].
      rewrite <- Htext. apply get_text_content_value. }
    split; [exact Hs' |].
    intros w2 Hfile Hnoclear.
    unfold script. rewrite Hnoclear, page_state.
    destruct (main_cached w2 s' text entry) as (Hcc & calls & He & Hn).
    + rewrite Hfile, <- Htext. apply get_text_content_value.
    + rewrite Hs'. exact Hcache.
    + rewrite Hcc, He, Hs'. split; [reflexivity |].
      exists calls. now split.
Qed.

End Reset.

(* ===================================================================== *)
(** * The sample session *)
(* ===================================================================== *)

Lemma scenario_ready (b : bool) :
  Ready (Scenario.stub_env b) Scenario.asking Scenario.loaded
        (lit Scenario.biography) Scenario.biography_index.
Proof.
  unfold Ready. split_and!; try (vm_compute; reflexivity).
  exists []. vm_compute. reflexivity.
Qed.

Lemma scenario_asked (b : bool) :
  Asked (Scenario.stub_env b) Scenario.asking Scenario.biography_index
        (lit Scenario.question) [Scenario.biography_document].
Proof.
  unfold Asked. split_and!; try (vm_compute; reflexivity).
  exists [21]. split; vm_compute; reflexivity.
Qed.

Lemma generator_failure_keeps_user_turn_witness :
  messages (state_after (script (Scenario.stub_env true) Scenario.asking Scenario.loaded))
  = Some (history Scenario.loaded ++ [user_turn (lit Scenario.question)]).
Proof.
  exact (proj1 (generator_failure_keeps_user_turn
           (Scenario.stub_env true) Scenario.asking Scenario.loaded
           (lit Scenario.biography) Scenario.biography_index
           (lit Scenario.question) [Scenario.biography_document] (lit "timeout")
           (scenario_ready true) (scenario_asked true) eq_refl)).
Defined.

(** C1 as stated fails: in the sample session the chat model times out on
    the question, and the message list afterwards holds the user turn: it
    is not what it was before the question. *)
Lemma generator_failure_mutates_store :
  ~ (forall (env : Env (list Z)) (w : Widgets) (s : State (list Z)) (text : str)
            (vs : FAISS (list Z)) (q : str) (context : list Document) (e : str),
        Ready env w s text vs ->
        Asked env w vs q context ->
        chat_invoke env (llm_of (api_key w))
                    (compose_prompt (chain_of vs (api_key w)) context q)
        = Raise e ->
        messages (state_after (script env w s)) = messages s).
Proof.
  intros H.
  specialize (H (Scenario.stub_env true) Scenario.asking Scenario.loaded
                (lit Scenario.biography) Scenario.biography_index
                (lit Scenario.question) [Scenario.biography_document] (lit "timeout")
                (scenario_ready true) (scenario_asked true) eq_refl).
  vm_compute in H. discriminate H.
Qed.

Lemma answered_query_appends_two_turns_witness :
  messages (state_after (script (Scenario.stub_env false) Scenario.asking Scenario.loaded))
  = Some (history Scenario.loaded
          ++ [user_turn (lit Scenario.question); assistant_turn (lit "Paris")]).
Proof.
  exact (answered_query_appends_two_turns
           (Scenario.stub_env false) Scenario.asking Scenario.loaded
           (lit Scenario.biography) Scenario.biography_index
           (lit Scenario.question) [Scenario.biography_document] (lit "Paris")
           (scenario_ready false) (scenario_asked false) eq_refl).
Defined.

Lemma build_memoized_on_content_only_witness :
  let env := Scenario.stub_env false in
  let first := build_vector_store env (lit Scenario.biography) (lit "key-1") Scenario.fresh in
  let again := build_vector_store env (lit Scenario.biography) (lit "key-2") (state_after first) in
  let other := build_vector_store env (lit "Bob.") (lit "key-2") (state_after again) in
  state_after again = state_after first
  /\ embedder_calls (state_after first)
     = [EmbedDocuments (embeddings_of (lit "key-1")) [lit Scenario.biography]]
  /\ embedder_calls (state_after other)
     = embedder_calls (state_after again)
       ++ [EmbedDocuments (embeddings_of (lit "key-2")) [lit "Bob."]].
Proof.
  cbv zeta.
  destruct (build_memoized_on_content_only
              (Scenario.stub_env false) (lit Scenario.biography) (lit "Bob.")
              (lit "key-1") (lit "key-2") Scenario.fresh)
    as ((_ & Hsame) & Honce & Hfresh).
  split; [exact Hsame |]. split.
  - rewrite Honce by (vm_compute; reflexivity). vm_compute. reflexivity.
  - rewrite Hfresh by (vm_compute; reflexivity).
    vm_compute. reflexivity.
Defined.

(** C2 as stated fails: after a build with one key, a build of the same
    document with another key hits the cache; it makes no embedding call
    with the new key. *)
Lemma key_change_does_not_rebuild :
  ~ (forall (env : Env (list Z)) (text key1 key2 : str) (s : State (list Z)),
        key1 <> key2 ->
        truthy text = true ->
        embeddings_new env (embeddings_of key2) = Ok tt ->
        let first := build_vector_store env text key1 s in
        let again := build_vector_store env text key2 (state_after first) in
        exists texts,
          embedder_calls (state_after again)
          = embedder_calls (state_after first)
            ++ [EmbedDocuments (embeddings_of key2) texts]).
Proof.
  intros H.
  destruct (H (Scenario.stub_env false) (lit Scenario.biography)
              (lit "key-1") (lit "key-2") Scenario.fresh)
    as [texts Hcalls]; try (vm_compute; congruence).
  apply (f_equal (@length EmbedCall)) in Hcalls.
  rewrite length_app in Hcalls. vm_compute in Hcalls. discriminate Hcalls.
Qed.

Lemma empty_document_builds_no_index_witness :
  script (Scenario.stub_env false)
         (Scenario.widgets "key-1" Scenario.empty_upload false None)
         Scenario.fresh
  = (tt,
     [ Title ([128100%N] ++ lit " Samuel's Interactive Biography");
       Markdown (lit "Upload a biography (text file) and ask questions to chat with it.");
       Info (lit "Please upload a .txt file or create a 'biography.txt' file in the app directory.") ],
     Scenario.fresh).
Proof.
  exact (proj1 (empty_document_builds_no_index
                  (Scenario.stub_env false)
                  (Scenario.widgets "key-1" Scenario.empty_upload false None)
                  Scenario.fresh (lit "key-1") eq_refl eq_refl eq_refl)).
Defined.

Lemma reset_clears_history_keeps_index_witness :
  let env := Scenario.stub_env false in
  let s' := state_after
              (script env (Scenario.widgets "key-1" Scenario.upload true None)
                      Scenario.answered) in
  history Scenario.answered
  = [user_turn (lit Scenario.question); assistant_turn (lit "Paris")]
  /\ history s' = []
  /\ s' = set_messages (Some []) Scenario.answered
  /\ resource_cache (state_after (script env Scenario.asking s'))
     = resource_cache Scenario.answered.
Proof.
  cbv zeta.
  destruct (reset_clears_history_keeps_index
              (Scenario.stub_env false)
              (Scenario.widgets "key-1" Scenario.upload true None)
              Scenario.answered eq_refl)
    as ((_ & Hhist) & _ & _ & Hcached).
  destruct (Hcached (lit Scenario.biography) (Some Scenario.biography_index, []))
    as (Hs' & Hnext); try (vm_compute; reflexivity).
  split; [vm_compute; reflexivity |].
  split; [exact Hhist |]. split; [exact Hs' |].
  exact (proj1 (Hnext Scenario.asking eq_refl eq_refl)).
Defined.

Lemma generator_input_independent_of_history_witness :
  messages Scenario.loaded <> messages Scenario.answered
  /\ exists calls,
      generator_calls (state_after (script (Scenario.stub_env false) Scenario.asking Scenario.loaded))
      = generator_calls Scenario.loaded ++ calls
      /\ generator_calls (state_after (script (Scenario.stub_env false) Scenario.asking Scenario.answered))
         = generator_calls Scenario.answered ++ calls.
Proof.
  split; [vm_compute; discriminate |].
  apply (generator_input_independent_of_history
           (Scenario.stub_env false) Scenario.asking
           Scenario.loaded Scenario.answered).
  vm_compute. reflexivity.
Defined.

Lemma document_loading_fallback_and_failure_witness :
  get_text_content (Scenario.local_file_env (Ok (lit Scenario.biography))) None Scenario.fresh
  = (Some (lit Scenario.biography), [], Scenario.fresh)
  /\ get_text_content (Scenario.local_file_env (Raise (lit "Permission denied")))
                      None Scenario.fresh
     = (None, [Error (lit "Error reading file: " ++ lit "Permission denied")], Scenario.fresh)
  /\ (exists e,
        get_text_content (Scenario.stub_env false) (Some Scenario.not_utf8) Scenario.fresh
        = (None, [Error (lit "Error reading file: " ++ e)], Scenario.fresh))
  /\ state_after (script (Scenario.stub_env false)
                         (Scenario.widgets "key-1" (Some Scenario.not_utf8) false None)
                         Scenario.fresh)
     = Scenario.fresh.
Proof.
  split_and!.
  - apply (proj1 (document_loading_fallback_and_failure
                    (Scenario.local_file_env (Ok (lit Scenario.biography)))
                    Scenario.fresh)); vm_compute; reflexivity.
  - apply (proj1 (proj2 (proj2 (document_loading_fallback_and_failure
                    (Scenario.local_file_env (Raise (lit "Permission denied")))
                    Scenario.fresh)))); vm_compute; reflexivity.
  - apply (proj1 (proj2 (proj2 (proj2 (document_loading_fallback_and_failure
                    (Scenario.stub_env false) Scenario.fresh))))).
    vm_compute. reflexivity.
  - apply (proj2 (proj2 (proj2 (proj2 (document_loading_fallback_and_failure
                    (Scenario.stub_env false) Scenario.fresh)))));
      vm_compute; reflexivity.
Defined.

(* ===================================================================== *)
(** * Further properties of the text splitter *)
(* ===================================================================== *)

Section Strip.

Lemma length_lstrip (s : str) : (length (lstrip s) <= length s)%nat.
Proof.
  induction s as [|c s IH]; simpl; [lia |].
  destruct (is_space c); simpl; lia.
Qed.

Lemma length_strip (s : str) : (length (strip s) <= length s)%nat.
Proof.
  unfold strip, rstrip. rewrite length_rev.
  pose proof (length_lstrip (rev (lstrip s))) as H1.
  rewrite length_rev in H1. pose proof (length_lstrip s). lia.
Qed.

Lemma lstrip_idem (s : str) : lstrip (lstrip s) = lstrip s.
Proof.
  induction s as [|c s IH]; [reflexivity |]. simpl.
  destruct (is_space c) eqn:E; [exact IH |]. simpl. now rewrite E.
Qed.

Lemma lstrip_snoc (x : str) (c : char) :
  is_space c = false -> lstrip (x ++ [c]) = lstrip x ++ [c].
Proof.
  intros Hc. induction x as [|a x IH]; simpl; [now rewrite Hc |].
  destruct (is_space a); [exact IH | reflexivity].
Qed.

Lemma lstrip_rstrip (t : str) : lstrip t = t -> lstrip (rstrip t) = rstrip t.
Proof.
  intros Ht. destruct t as [|c t]; [reflexivity |].
  simpl in Ht. destruct (is_space c) eqn:Hc.
  - exfalso. pose proof (length_lstrip t) as Hl. rewrite Ht in Hl. simpl in Hl. lia.
  - unfold rstrip. simpl rev. rewrite lstrip_snoc by exact Hc.
    rewrite rev_app_distr. simpl. now rewrite Hc.
Qed.

Lemma strip_idem (s : str) : strip (strip s) = strip s.
Proof.
  unfold strip.
  rewrite (lstrip_rstrip (lstrip s)) by apply lstrip_idem.
  unfold rstrip. rewrite rev_involutive. now rewrite lstrip_idem.
Qed.

End Strip.

Section Bounded.

Variable n : nat.
Variable chunk_overlap : Z.
Hypothesis n_gt_1 : (1 < n)%nat.

Let cs : Z := Z.of_nat n.

Lemma join_docs_well_formed (cur : list str) (doc : str) :
  len (join [] cur) <= cs ->
  _join_docs cur [] = Some doc ->
  well_formed_chunk n doc.
Proof.
  intros Hlen. unfold _join_docs.
  destruct (strip (join [] cur)) as [|c t] eqn:E; [discriminate |].
  intros [= <-]. rewrite <- E. split_and!.
  - rewrite E. discriminate.
  - pose proof (length_strip (join [] cur)). unfold cs, len in Hlen. lia.
  - apply strip_idem.
Qed.

(** When the [while] loop ends, the piece that comes next fits. *)
Lemma pop_front_fits (_len : Z) (cur : list str) (tot : Z) :
  tot = len (join [] cur) ->
  0 <= _len < cs ->
  snd (pop_front cs chunk_overlap [] _len cur tot) + _len <= cs.
Proof.
  revert tot. induction cur as [|d rest IH]; intros tot Htot Hlen.
  - cbn [pop_front snd]. rewrite Htot. unfold len. simpl. lia.
  - cbn [pop_front].
    destruct (keep_popping cs chunk_overlap [] _len (d :: rest) tot) eqn:K.
    + apply IH; [| exact Hlen].
      rewrite Htot, (len_join_cons [] d rest). lia.
    + cbn [snd]. unfold keep_popping in K. rewrite sep_if_nil in K.
      apply orb_false_iff in K as [_ K]. apply andb_false_iff in K as [K|K].
      * apply Z.ltb_ge in K. lia.
      * apply Z.ltb_ge in K. lia.
Qed.

Lemma merge_step_well_formed (st : merge_state) (d : str) :
  len d < cs ->
  total st = len (join [] (current_doc st)) ->
  total st <= cs ->
  Forall (well_formed_chunk n) (docs st) ->
  total (merge_step cs chunk_overlap [] st d) <= cs
  /\ Forall (well_formed_chunk n) (docs (merge_step cs chunk_overlap [] st d)).
Proof.
  intros Hd Htot Hle Hdocs.
  assert (0 <= len d) as Hd0 by (unfold len; lia).
  unfold merge_step. rewrite !sep_if_nil.
  destruct (cs <? total st + len d + 0) eqn:Hemit;
    [destruct (0 <? length (current_doc st))%nat eqn:Hcur |].
  - pose proof (pop_front_fits (len d) (current_doc st) (total st) Htot
                               (conj Hd0 Hd)) as Hfit.
    destruct (pop_front cs chunk_overlap [] (len d) (current_doc st) (total st))
      as [cur' tot'].
    cbn [snd] in Hfit. cbn [docs current_doc total].
    split; [lia |].
    destruct (_join_docs (current_doc st) []) as [doc|] eqn:J; [| exact Hdocs].
    apply Forall_app. split; [exact Hdocs |]. constructor; [| constructor].
    apply (join_docs_well_formed (current_doc st)); [| exact J].
    rewrite <- Htot. exact Hle.
  - cbn [docs current_doc total]. split; [| exact Hdocs].
    apply Nat.ltb_ge in Hcur.
    destruct (current_doc st) as [|x cur] eqn:E; [| simpl in Hcur; lia].
    rewrite Htot. unfold len in *. simpl. lia.
  - cbn [docs current_doc total]. split; [| exact Hdocs].
    apply Z.ltb_ge in Hemit. lia.
Qed.

Lemma merge_fold_well_formed (splits : list str) :
  forall st,
    Forall (fun p => len p < cs) splits ->
    total st = len (join [] (current_doc st)) ->
    total st <= cs ->
    Forall (well_formed_chunk n) (docs st) ->
    let st' := fold_left (merge_step cs chunk_overlap []) splits st in
    total st' = len (join [] (current_doc st'))
    /\ total st' <= cs
    /\ Forall (well_formed_chunk n) (docs st').
Proof.
  induction splits as [|d splits IH]; intros st Hshort Htot Hle Hdocs.
  - cbn. now split_and!.
  - inversion Hshort as [|? ? Hd Hrest]; subst.
    destruct (merge_step_well_formed st d Hd Htot Hle Hdocs) as [Hle' Hdocs'].
    apply (IH (merge_step cs chunk_overlap [] st d)); try assumption.
    now apply merge_step_total.
Qed.

Lemma merge_splits_well_formed (splits : list str) :
  Forall (fun p => len p < cs) splits ->
  Forall (well_formed_chunk n) (_merge_splits cs chunk_overlap splits []).
Proof.
  intros Hshort. unfold _merge_splits.
  destruct (merge_fold_well_formed splits (MergeState [] [] 0) Hshort)
    as (Htot & Hle & Hdocs); [reflexivity | cbn [total]; unfold cs; lia | constructor |].
  cbv zeta in Htot, Hle, Hdocs.
  destruct (_join_docs _ []) as [doc|] eqn:J; [| exact Hdocs].
  apply Forall_app. split; [exact Hdocs |]. constructor; [| constructor].
  apply (join_docs_well_formed _ _ (eq_ind _ (fun t => t <= cs) Hle _ Htot) J).
Qed.

Lemma split_loop_well_formed (f : str -> list str) (splits : list str) :
  (forall s, Forall (well_formed_chunk n) (f s)) ->
  forall good,
    Forall (fun p => len p < cs) good ->
    Forall (well_formed_chunk n) (split_loop cs chunk_overlap (Some f) good splits).
Proof.
  intros Hf. induction splits as [|s rest IH]; intros good Hgood.
  - cbn. destruct good; [constructor | now apply merge_splits_well_formed].
  - cbn [split_loop]. destruct (len s <? cs) eqn:Hs.
    + apply IH. apply Forall_app. split; [exact Hgood |].
      constructor; [| constructor]. now apply Z.ltb_lt.
    + rewrite !Forall_app. split_and!.
      * destruct good; [constructor | now apply merge_splits_well_formed].
      * apply Hf.
      * apply IH. constructor.
Qed.

Lemma split_text_well_formed (separators : list str) :
  last separators = Some [] ->
  forall text,
    Forall (well_formed_chunk n) (_split_text cs chunk_overlap separators text).
Proof.
  induction separators as [|s rest IH]; intros Hlast text; [discriminate |].
  cbn [_split_text].
  destruct s as [|c s].
  - unfold _split_text_with_regex. rewrite filter_truthy_chars.
    rewrite split_loop_short by now apply chars_short.
    cbn [app]. destruct (chars text) eqn:E; [constructor |]. rewrite <- E.
    apply merge_splits_well_formed. now apply chars_short.
  - destruct rest as [|r rest']; [discriminate |].
    assert (last (r :: rest') = Some []) as Hlast' by exact Hlast.
    destruct (contains (c :: s) text); [| now apply IH].
    apply split_loop_well_formed; [| constructor].
    intros s0. now apply IH.
Qed.

End Bounded.

(** X4: every chunk the splitter produces with [chunk_size=1000] and
    [chunk_overlap=200], for any text, is non-empty, has at most 1000
    characters and has no whitespace at either end. *)
Theorem chunks_are_well_formed (text : str) :
  Forall (well_formed_chunk 1000) (split_text 1000 200 text).
Proof.
  unfold split_text. change 1000 with (Z.of_nat 1000).
  apply (split_text_well_formed 1000 200); [lia | reflexivity].
Qed.

Section Rejoin.

Variables n k : nat.
Hypothesis k_lt_n : (k < n)%nat.

Let cs : Z := Z.of_nat n.
Let ov : Z := Z.of_nat k.

Lemma rejoin_snoc (D : list str) (w : str) :
  D <> [] -> rejoin k (D ++ [w]) = rejoin k D ++ drop k w.
Proof.
  destruct D as [|d D]; [congruence |]. intros _.
  cbn [app rejoin]. rewrite List.map_app, concat_app. cbn.
  now rewrite app_nil_r, <- app_assoc.
Qed.

Lemma rejoin_single (w : str) : rejoin k [w] = w.
Proof. cbn. apply app_nil_r. Qed.

(** The merge loop over the first characters [pre] of an unbroken text:
    the chunks emitted and the window being filled hold exactly [pre]. *)
Lemma rejoin_fold (text : str) :
  (0 < n)%nat ->
  no_space text ->
  forall (pre : str) (st : merge_state) (w : str),
    current_doc st = chars w ->
    total st = len w ->
    (length w <= n)%nat ->
    no_space w ->
    (docs st <> [] -> (k <= length w)%nat /\ w <> []) ->
    pre = rejoin k (docs st ++ [w]) ->
    let st' := fold_left (merge_step cs ov []) (chars text) st in
    exists w',
      current_doc st' = chars w'
      /\ no_space w'
      /\ (docs st' <> [] -> w' <> [])
      /\ pre ++ text = rejoin k (docs st' ++ [w']).
Proof.
  intros Hn. induction text as [|c text IH];
    intros Hns pre st w Hcur Htot Hlen Hw Hdocs Hpre.
  - cbn. exists w. rewrite app_nil_r. split_and!; try assumption.
    intros H. now apply Hdocs.
  - apply no_space_cons in Hns as [Hc Hns].
    cbn [chars List.map fold_left]. fold (chars text).
    replace (pre ++ c :: text) with ((pre ++ [c]) ++ text)
      by now rewrite <- app_assoc.
    set (st1 := merge_step cs ov [] st [c]).
    destruct (cs <? len w + 1 + 0) eqn:Hemit.
    + apply Z.ltb_lt in Hemit.
      assert (length w = n) as Hwn by (unfold cs, len in Hemit; lia).
      assert (st1 = MergeState (docs st ++ [w])
                               (chars (drop (length w - k) w ++ [c]))
                               (ov + 1 + 0)) as Hst1.
      { subst st1. unfold merge_step. rewrite !sep_if_nil, Hcur, Htot.
        change (len [c]) with 1.
        replace (cs <? len w + 1 + 0) with true
          by (symmetry; apply Z.ltb_lt; lia).
        rewrite length_chars.
        replace (0 <? length w)%nat with true
          by (symmetry; apply Nat.ltb_lt; lia).
        unfold _join_docs.
        rewrite join_nil, concat_chars, strip_no_space by assumption.
        destruct w as [|a w0] eqn:Ew; [simpl in Hwn; lia |]. rewrite <- Ew in *.
        rewrite (pop_front_chars n k k_lt_n) by lia.
        cbn [docs current_doc total]. unfold chars. now rewrite List.map_app. }
      apply (IH Hns (pre ++ [c]) st1 (drop (length w - k) w ++ [c]));
        rewrite ?Hst1; cbn [docs current_doc total].
      * reflexivity.
      * rewrite len_app. unfold ov, len. rewrite length_drop. simpl. lia.
      * rewrite length_app, length_drop. simpl. lia.
      * apply no_space_app. split; [now apply no_space_drop |].
        apply no_space_cons. split; [assumption | reflexivity].
      * intros _. rewrite length_app, length_drop. simpl.
        split; [lia | now destruct (drop (length w - k) w)].
      * rewrite rejoin_snoc by now destruct (docs st).
        rewrite <- Hpre. f_equal.
        rewrite drop_app_ge by (rewrite length_drop; lia).
        rewrite length_drop.
        replace (k - (length w - (length w - k)))%nat with 0%nat by lia.
        reflexivity.
    + apply Z.ltb_ge in Hemit.
      assert (st1 = MergeState (docs st) (chars (w ++ [c])) (len w + 1 + 0))
        as Hst1.
      { subst st1. unfold merge_step. rewrite !sep_if_nil, Hcur, Htot.
        change (len [c]) with 1.
        replace (cs <? len w + 1 + 0) with false
          by (symmetry; apply Z.ltb_ge; lia).
        rewrite Hcur, Htot. unfold chars. now rewrite List.map_app. }
      apply (IH Hns (pre ++ [c]) st1 (w ++ [c]));
        rewrite ?Hst1; cbn [docs current_doc total].
      * reflexivity.
      * rewrite len_app. change (len [c]) with 1. lia.
      * rewrite length_app. simpl. unfold cs, len in Hemit. lia.
      * apply no_space_app. split; [assumption |].
        apply no_space_cons. split; [assumption | reflexivity].
      * intros H. destruct (Hdocs H) as [Hk _].
        rewrite length_app. simpl. split; [lia | now destruct w].
      * rewrite Hpre.
        destruct (docs st) as [|d D] eqn:ED.
        -- cbn [app]. now rewrite !rejoin_single.
        -- destruct Hdocs as [Hk _]; [discriminate |].
           rewrite !rejoin_snoc by discriminate.
           rewrite drop_app_le by exact Hk. now rewrite <- app_assoc.
Qed.

Lemma merge_chars_rejoin (text : str) :
  (0 < n)%nat ->
  no_space text ->
  rejoin k (_merge_splits cs ov (chars text) []) = text.
Proof.
  intros Hn Hns. unfold _merge_splits.
  destruct (rejoin_fold text Hn Hns [] (MergeState [] [] 0) [])
    as (w & Hcur & Hw & Hne & Hre);
    try reflexivity; try (cbn; lia); try (intros H; now contradiction H).
  cbv zeta in Hcur, Hne, Hre. rewrite Hcur. unfold _join_docs.
  rewrite join_nil, concat_chars, strip_no_space by assumption.
  cbn [app] in Hre.
  destruct w as [|a w0]; [| symmetry; exact Hre].
  destruct (docs _) as [|d D]; [symmetry; exact Hre |].
  exfalso. now apply Hne.
Qed.

End Rejoin.

(** X5: for a text without whitespace, putting the chunks back together,
    each one after the first without its first 200 characters, gives the
    text again. *)
Theorem unbroken_text_rejoins (text : str) :
  no_space text ->
  rejoin 200 (split_text 1000 200 text) = text.
Proof.
  intros Hns.
  change 1000 with (Z.of_nat 1000). change 200 with (Z.of_nat 200).
  rewrite split_text_unbroken by (lia || assumption).
  destruct text as [|c text'] eqn:E; [reflexivity |]. rewrite <- E in *.
  apply merge_chars_rejoin; [lia | lia | assumption].
Qed.

(* ===================================================================== *)
(** * Further properties of the runs *)
(* ===================================================================== *)

Section Extras.

Context {Vec : Type}.
Variable env : Env Vec.

(** X1: without an API key the run shows the warning and stops there:
    the document is not read, nothing is built or asked, and the state is
    left as it is (with the message list emptied when the run comes from
    the "Clear Chat History" button). *)
Theorem missing_key_stops_run (w : Widgets) (s : State Vec) :
  truthy (api_key w) = false ->
  script env w s
  = (tt,
     [ Title ([128100%N] ++ lit " Samuel's Interactive Biography");
       Markdown (lit "Upload a biography (text file) and ask questions to chat with it.");
       Warning (lit "Please enter your Google API Key in the sidebar to start.") ],
     if clear_chat_history w then set_messages (Some []) s else s).
Proof.
  intros Hkey. unfold script, page, main, after_rerun.
  destruct (clear_chat_history w); cbn [api_key]; rewrite Hkey; reflexivity.
Qed.

(** The outcome of the body of [build_vector_store] on a non-empty text. *)
Lemma build_body_outcome (text key : str) (s : State Vec) :
  truthy text = true ->
  build_vector_store_body env text key s
  = match embeddings_new env (embeddings_of key) with
    | Raise e => (None, [Error (lit "Error creating vector store: " ++ e)], s)
    | Ok _ =>
        let s1 := log_embedder_call
                    (EmbedDocuments (embeddings_of key) (split_text 1000 200 text)) s in
        match embed_documents env (embeddings_of key) (split_text 1000 200 text) with
        | Raise e => (None, [Error (lit "Error creating vector store: " ++ e)], s1)
        | Ok [] => (None, [Error (lit "Error creating vector store: "
                                  ++ lit "list index out of range")], s1)
        | Ok (v :: vectors) => (Some (index_of text key (v :: vectors)), [], s1)
        end
    end.
Proof.
  intros Ht. unfold build_vector_store_body. rewrite Ht. cbn [negb].
  fold (embeddings_of key).
  destruct (embeddings_new env (embeddings_of key)) as [[]|e]; [| reflexivity].
  unfold bind, from_documents, modify, ret.
  rewrite split_documents_single.
  destruct (embed_documents env _ _) as [[|v vectors]|e]; reflexivity.
Qed.

(** X2: an index build that fails because the embedding call raises
    returns [None] after showing the error, and this outcome is cached for
    the document: the next call for the same text, with any key, returns
    [None] again and replays the error without calling the embedding
    model. *)
Theorem failed_build_is_cached (text key1 key2 e : str) (s : State Vec) :
  resource_cache s !! text = None ->
  truthy text = true ->
  embeddings_new env (embeddings_of key1) = Ok tt ->
  embed_documents env (embeddings_of key1) (split_text 1000 200 text) = Raise e ->
  let first := build_vector_store env text key1 s in
  value first = None
  /\ drawn first = [Error (lit "Error creating vector store: " ++ e)]
  /\ build_vector_store env text key2 (state_after first)
     = (None, [Error (lit "Error creating vector store: " ++ e)], state_after first).
Proof.
  intros Hmiss Ht Hnew Hfail first.
  assert (value first = None
          /\ drawn first = [Error (lit "Error creating vector store: " ++ e)])
    as [Hv Hd].
  { subst first. rewrite (build_miss env _ _ _ Hmiss).
    cbn [value drawn fst snd].
    rewrite (build_body_outcome _ _ _ Ht), Hnew. cbv zeta. rewrite Hfail.
    now split. }
  split_and!; [exact Hv | exact Hd |].
  pose proof (build_cached_after env text key1 s) as Hc.
  fold first in Hc. rewrite Hv, Hd in Hc.
  now rewrite (build_vector_store_hit env _ _ _ _ Hc).
Qed.

(** X3: an index that [build_vector_store] builds holds one document per
    chunk of the text, in order, each labelled with the source
    ["biography"]; it keeps the embeddings object made from the key of the
    call, and its vectors are the non-empty list the embedding model
    returned for the chunks. *)
Theorem built_index_covers_all_chunks (text key : str) (s : State Vec)
        (vs : FAISS Vec) :
  resource_cache s !! text = None ->
  value (build_vector_store env text key s) = Some vs ->
  List.map page_content (docstore vs) = split_text 1000 200 text
  /\ Forall (fun d => metadata d = [(lit "source", lit "biography")]) (docstore vs)
  /\ embedding_function vs = embeddings_of key
  /\ index vs <> []
  /\ embed_documents env (embeddings_of key) (split_text 1000 200 text)
     = Ok (index vs).
Proof.
  intros Hmiss Hv. rewrite (build_miss env _ _ _ Hmiss) in Hv.
  cbn [value fst] in Hv.
  destruct (truthy text) eqn:Ht.
  - rewrite (build_body_outcome _ _ _ Ht) in Hv.
    destruct (embeddings_new env (embeddings_of key)) as [[]|e];
      [| discriminate Hv].
    cbv zeta in Hv.
    destruct (embed_documents env _ _) as [[|v vectors]|e] eqn:He;
      try discriminate Hv.
    cbn [value fst] in Hv. injection Hv as <-.
    unfold index_of. cbn [docstore index embedding_function].
    split_and!; try reflexivity; try discriminate.
    + apply split_documents_single.
    + unfold split_documents. cbn [List.flat_map page_content metadata].
      rewrite app_nil_r. apply List.Forall_forall. intros d Hd.
      apply List.in_map_iff in Hd as (c & <- & _). reflexivity.
  - unfold build_vector_store_body in Hv. rewrite Ht in Hv. discriminate Hv.
Qed.

(** *** Questions *)

Lemma drawn_bind {A B} (m : M Vec A) (k : A -> M Vec B) (s : State Vec) :
  drawn (bind m k s)
  = drawn (m s) ++ drawn (k (value (m s)) (state_after (m s))).
Proof.
  unfold bind. destruct (m s) as [[a o] s1]. cbn [value drawn state_after fst snd].
  now destruct (k a s1) as [[b o2] s2].
Qed.

(** In a ready session [main] reaches the chat part with the cached index. *)
Lemma main_ready_chat (w : Widgets) (s : State Vec) (text : str) (vs : FAISS Vec) :
  Ready env w s text vs ->
  state_after (main env w s)
  = state_after
      (match chat_input w with
       | Some ((_ :: _) as user_input) =>
           ask env (value (get_rag_chain env vs (api_key w) s)) user_input
       | _ => ret tt
       end (set_messages (Some (history s)) s)).
Proof.
  intros (Hkey & _ & Htext & Htruthy & elements & Hcache).
  unfold main. rewrite Hkey. cbn [negb].
  rewrite state_after_bind, (get_text_content_some env _ _ _ Htext).
  cbn [value state_after fst snd].
  destruct text as [|c text]; [discriminate |].
  rewrite state_after_bind, (build_vector_store_hit env _ _ _ _ Hcache).
  cbn [value state_after fst snd].
  rewrite state_after_bind, get_rag_chain_state.
  rewrite state_after_bind, init_messages_run. cbn [value state_after fst snd].
  rewrite state_after_bind, replay_messages_run. cbn [value state_after fst snd].
  reflexivity.
Qed.

Lemma page_drawn (w : Widgets) (s : State Vec) :
  drawn (page env w s)
  = [ Title ([128100%N] ++ lit " Samuel's Interactive Biography");
      Markdown (lit "Upload a biography (text file) and ask questions to chat with it.") ]
    ++ drawn (main env w s).
Proof.
  unfold page, bind, draw. now destruct (main env w s) as [[u out] s'].
Qed.

Lemma draw_messages_drawn (ms : list Message) (s : State Vec) :
  drawn (draw_messages ms s) = List.map render ms.
Proof.
  induction ms as [|m ms IH]; [reflexivity |].
  cbn [draw_messages List.map]. rewrite drawn_bind.
  unfold chat_message at 1, draw at 1. cbn [value drawn state_after fst snd app].
  unfold chat_message at 1, draw at 1. cbn [value drawn state_after fst snd app].
  now rewrite IH.
Qed.

(** What [main] draws in a ready session: the elements replayed from the
    cache, those of the chain creation, the conversation, and the exchange
    of this run. *)
Lemma main_ready_drawn (w : Widgets) (s : State Vec) (text : str) (vs : FAISS Vec) :
  Ready env w s text vs ->
  exists elements,
    resource_cache s !! text = Some (Some vs, elements)
    /\ drawn (main env w s)
       = elements
         ++ drawn (get_rag_chain env vs (api_key w) s)
         ++ List.map render (history s)
         ++ drawn
              (match chat_input w with
               | Some ((_ :: _) as user_input) =>
                   ask env (value (get_rag_chain env vs (api_key w) s)) user_input
               | _ => ret tt
               end (set_messages (Some (history s)) s)).
Proof.
  intros (Hkey & _ & Htext & Htruthy & elements & Hcache).
  exists elements. split; [exact Hcache |].
  unfold main. rewrite Hkey. cbn [negb].
  rewrite drawn_bind, (get_text_content_some env _ _ _ Htext).
  cbn [value drawn state_after fst snd app].
  destruct text as [|c text]; [discriminate |].
  rewrite drawn_bind, (build_vector_store_hit env _ _ _ _ Hcache).
  cbn [value drawn state_after fst snd]. f_equal.
  rewrite drawn_bind, get_rag_chain_state. f_equal.
  rewrite drawn_bind, init_messages_run. cbn [value drawn state_after fst snd app].
  rewrite drawn_bind.
  replace (drawn (replay_messages (set_messages (Some (history s)) s)))
    with (List.map render (history s))
    by (unfold replay_messages; now rewrite draw_messages_drawn).
  rewrite replay_messages_run. cbn [value state_after fst snd]. reflexivity.
Qed.

Lemma script_state (w : Widgets) (s : State Vec) :
  state_after (script env w s)
  = if clear_chat_history w
    then state_after (main env (after_rerun w) (set_messages (Some []) s))
    else state_after (main env w s).
Proof.
  unfold script. destruct (clear_chat_history w); apply page_state.
Qed.

(** X6: a question asked in a ready session makes exactly one call to
    the embedding model, for the question and with the embeddings object
    of the cached index, and exactly one call to the chat model, with the
    chat model of the current key and the prompt composed from the
    retrieved documents and the question; the cache is unchanged.  This
    holds whether the chat model answers or fails. *)
Theorem query_makes_exactly_two_calls (w : Widgets) (s : State Vec) (text : str)
        (vs : FAISS Vec) (q : str) (context : list Document) :
  Ready env w s text vs ->
  Asked env w vs q context ->
  embedder_calls (state_after (script env w s))
  = embedder_calls s ++ [EmbedQuery (embedding_function vs) q]
  /\ generator_calls (state_after (script env w s))
     = generator_calls s
       ++ [(llm_of (api_key w), compose_prompt (chain_of vs (api_key w)) context q)]
  /\ resource_cache (state_after (script env w s)) = resource_cache s.
Proof.
  intros Hready Hasked.
  rewrite script_state, (main_ready_chat _ _ _ _ Hready).
  destruct Hready as (_ & Hclear & _). rewrite Hclear.
  destruct Hasked as (Hin & Hq & Hllm & v & Hv & Hs).
  rewrite Hin. destruct q as [|c q]; [discriminate |].
  rewrite (get_rag_chain_ok env _ _ _ Hllm). cbn [value fst].
  destruct (chat_invoke env (llm_of (api_key w))
              (compose_prompt (chain_of vs (api_key w)) context (c :: q)))
    as [answer|e] eqn:Hgen.
  - rewrite (ask_answered env _ _ _ _ _ _ _ Hv Hs Hgen). now split_and!.
  - rewrite (ask_failed env _ _ _ _ _ _ _ Hv Hs Hgen). now split_and!.
Qed.

(** X7: when the chat model client cannot be created in a ready session,
    the page shows the chain-creation error, and a question asked in that
    run is still recorded as a user turn; no call is made to the embedding
    model or to the chat model, and the assistant's message shows the
    error of calling [invoke] on [None]. *)
Theorem chain_failure_reported_per_question (w : Widgets) (s : State Vec)
        (text : str) (vs : FAISS Vec) (q e : str) :
  Ready env w s text vs ->
  chat_input w = Some q ->
  truthy q = true ->
  chat_model_new env (llm_of (api_key w)) = Raise e ->
  messages (state_after (script env w s)) = Some (history s ++ [user_turn q])
  /\ embedder_calls (state_after (script env w s)) = embedder_calls s
  /\ generator_calls (state_after (script env w s)) = generator_calls s
  /\ In (Error (lit "Error creating chain: " ++ e)) (drawn (script env w s))
  /\ last (drawn (script env w s))
     = Some (ChatMessage (lit "assistant")
               [Error (lit "An error occurred during generation: "
                       ++ lit "'NoneType' object has no attribute 'invoke'")]).
Proof.
  intros Hready Hin Hq Hllm.
  assert (get_rag_chain env vs (api_key w) s
          = (None, [Error (lit "Error creating chain: " ++ e)], s)) as Hrc.
  { unfold get_rag_chain. fold (llm_of (api_key w)). now rewrite Hllm. }
  pose proof (main_ready_chat _ _ _ _ Hready) as Hst.
  destruct (main_ready_drawn _ _ _ _ Hready) as (elements & _ & Hdr).
  destruct Hready as (_ & Hclear & _).
  assert (drawn (script env w s)
          = [ Title ([128100%N] ++ lit " Samuel's Interactive Biography");
              Markdown (lit "Upload a biography (text file) and ask questions to chat with it.") ]
            ++ drawn (main env w s)) as Hscr
    by (unfold script; rewrite Hclear; apply page_drawn).
  rewrite script_state, Hclear, Hst, Hscr, Hdr, Hin.
  destruct q as [|c q]; [discriminate |].
  rewrite Hrc. cbn [value drawn fst snd].
  split_and!; try reflexivity.
  - rewrite !in_app_iff. right. right. left. now left.
  - now rewrite !last_app.
Qed.

(** X8: when embedding the question fails, the chat model is not called:
    the user turn is recorded, the one embedding call is the failed one,
    and the error is shown in the assistant's message. *)
Theorem retrieval_failure_skips_generator (w : Widgets) (s : State Vec)
        (text : str) (vs : FAISS Vec) (q e : str) :
  Ready env w s text vs ->
  chat_input w = Some q ->
  truthy q = true ->
  chat_model_new env (llm_of (api_key w)) = Ok tt ->
  embed_query env (embedding_function vs) q = Raise e ->
  messages (state_after (script env w s)) = Some (history s ++ [user_turn q])
  /\ generator_calls (state_after (script env w s)) = generator_calls s
  /\ embedder_calls (state_after (script env w s))
     = embedder_calls s ++ [EmbedQuery (embedding_function vs) q]
  /\ last (drawn (script env w s))
     = Some (ChatMessage (lit "assistant")
               [Error (lit "An error occurred during generation: " ++ e)]).
Proof.
  intros Hready Hin Hq Hllm Hfail.
  pose proof (main_ready_chat _ _ _ _ Hready) as Hst.
  destruct (main_ready_drawn _ _ _ _ Hready) as (elements & _ & Hdr).
  destruct Hready as (_ & Hclear & _).
  assert (drawn (script env w s)
          = [ Title ([128100%N] ++ lit " Samuel's Interactive Biography");
              Markdown (lit "Upload a biography (text file) and ask questions to chat with it.") ]
            ++ drawn (main env w s)) as Hscr
    by (unfold script; rewrite Hclear; apply page_drawn).
  assert (ask env (Some (chain_of vs (api_key w))) q
              (set_messages (Some (history s)) s)
          = (tt,
             [ChatMessage (lit "user") [Markdown q];
              ChatMessage (lit "assistant")
                [Error (lit "An error occurred during generation: " ++ e)]],
             log_embedder_call (EmbedQuery (embedding_function vs) q)
               (append_message (user_turn q)
                  (set_messages (Some (history s)) s)))) as Hask.
  { unfold ask, bind, modify, chat_message, draw, invoke, ret.
    cbn [chain_retriever chain_of]. rewrite Hfail. reflexivity. }
  rewrite script_state, Hclear, Hst, Hscr, Hdr, Hin.
  destruct q as [|c q]; [discriminate |].
  rewrite (get_rag_chain_ok env _ _ _ Hllm). cbn [value fst]. rewrite Hask.
  split_and!; try reflexivity.
  cbn [drawn fst snd]. now rewrite !last_app.
Qed.

(** *** What a run keeps *)

Lemma ask_history (rag_chain : option (Chain Vec)) (q : str) (s : State Vec) :
  exists reply,
    history (state_after (ask env rag_chain q s))
    = history s ++ user_turn q :: reply
    /\ (reply = [] \/ exists a, reply = [assistant_turn a]).
Proof.
  unfold ask, bind, modify, chat_message, draw, ret.
  destruct rag_chain as [chain|].
  - unfold invoke, bind, modify, ret.
    destruct (embed_query env _ _) as [v|e].
    + destruct (chat_invoke env _ _) as [a|e].
      * exists [assistant_turn a]. split; [| right; now exists a].
        unfold history, append_message. cbn. now rewrite <- app_assoc.
      * exists []. split; [reflexivity | now left].
    + exists []. split; [reflexivity | now left].
  - exists []. split; [reflexivity | now left].
Qed.

(** The cache after [main]: as before, or as after the one index build. *)
Lemma main_cache (w : Widgets) (s : State Vec) :
  resource_cache (state_after (main env w s)) = resource_cache s
  \/ exists text,
      resource_cache (state_after (main env w s))
      = resource_cache (state_after (build_vector_store env text (api_key w) s)).
Proof.
  unfold main. destruct (truthy (api_key w)); cbn [negb]; [| now left].
  rewrite state_after_bind, get_text_content_state.
  destruct (value (get_text_content env (uploaded_file w) s)) as [[|c text]|];
    [now left | | now left].
  right. exists (c :: text). rewrite state_after_bind.
  destruct (value (build_vector_store env (c :: text) (api_key w) s)) as [vs|];
    [| reflexivity].
  apply (query_only_chat env w vs).
Qed.

(** X9: no run of the script removes or replaces an entry of the index
    cache, whatever the widgets hold. *)
Theorem cache_never_invalidated (w : Widgets) (s : State Vec) (text : str)
        (entry : option (FAISS Vec) * list Element) :
  resource_cache s !! text = Some entry ->
  resource_cache (state_after (script env w s)) !! text = Some entry.
Proof.
  assert (forall w0 s0,
             resource_cache s0 !! text = Some entry ->
             resource_cache (state_after (main env w0 s0)) !! text = Some entry)
    as Hmain.
  { intros w0 s0 H0. destruct (main_cache w0 s0) as [-> | [t ->]]; [exact H0 |].
    now apply build_frame. }
  intros H. rewrite script_state.
  destruct (clear_chat_history w); now apply Hmain.
Qed.

(** X10: a run that does not come from the "Clear Chat History" button
    only appends to the conversation: nothing, or the user turn of the
    submitted question, or that user turn followed by one assistant
    turn. *)
Theorem history_append_only (w : Widgets) (s : State Vec) :
  clear_chat_history w = false ->
  exists added,
    history (state_after (script env w s)) = history s ++ added
    /\ (added = []
        \/ exists q,
            chat_input w = Some q
            /\ (added = [user_turn q]
                \/ exists a, added = [user_turn q; assistant_turn a])).
Proof.
  intros Hclear. rewrite script_state, Hclear.
  assert (forall s0 : State Vec, history s0 = history s0 ++ []) as Hnil
    by (intros; now rewrite app_nil_r).
  unfold main. destruct (truthy (api_key w)); cbn [negb];
    [| exists []; split; [apply Hnil | now left]].
  rewrite state_after_bind, get_text_content_state.
  destruct (value (get_text_content env (uploaded_file w) s)) as [[|c text]|];
    try (exists []; split; [apply Hnil | now left]).
  rewrite state_after_bind.
  destruct (build_frame env (c :: text) (api_key w) s) as (Bm & _ & _).
  set (s1 := state_after (build_vector_store env (c :: text) (api_key w) s)) in *.
  assert (history s1 = history s) as Hh by (unfold history; now rewrite Bm).
  destruct (value (build_vector_store env (c :: text) (api_key w) s)) as [vs|];
    [| exists []; cbn [ret state_after snd]; rewrite Hh; split;
       [apply Hnil | now left]].
  rewrite state_after_bind, get_rag_chain_state.
  rewrite state_after_bind, init_messages_run. cbn [value state_after fst snd].
  rewrite state_after_bind, replay_messages_run. cbn [value state_after fst snd].
  assert (history (set_messages (Some (history s1)) s1) = history s) as Hh'
    by (unfold history at 1; cbn; exact Hh).
  destruct (chat_input w) as [[|c' q]|] eqn:Hin;
    try (exists []; cbn [ret state_after snd]; rewrite Hh'; split;
         [apply Hnil | now left]).
  destruct (ask_history (value (get_rag_chain env vs (api_key w) s1)) (c' :: q)
                        (set_messages (Some (history s1)) s1))
    as (reply & Hask & Hreply).
  exists (user_turn (c' :: q) :: reply). rewrite Hask, Hh'.
  split; [reflexivity |]. right. exists (c' :: q). split; [reflexivity |].
  destruct Hreply as [-> | [a ->]]; [now left | right; now exists a].
Qed.

(** *** The cached indexes *)

Lemma build_sound (text key : str) (s : State Vec) :
  cache_sound env s ->
  cache_sound env (state_after (build_vector_store env text key s)).
Proof.
  intros Hsound.
  destruct (resource_cache s !! text) as [entry|] eqn:E.
  - now rewrite (build_vector_store_hit env _ _ _ _ E).
  - rewrite (build_miss env _ _ _ E). cbn [state_after snd].
    unfold set_resource_cache. intros t vs elements. cbn [resource_cache].
    rewrite build_body_cache.
    destruct (decide (text = t)) as [<-|Hne].
    + rewrite lookup_insert_eq. intros [= Hv Hd].
      destruct (truthy text) eqn:Ht.
      * rewrite (build_body_outcome _ _ _ Ht) in Hv.
        destruct (embeddings_new env (embeddings_of key)) as [[]|e];
          [| discriminate Hv].
        cbv zeta in Hv.
        destruct (embed_documents env _ _) as [[|v vectors]|e] eqn:He;
          try discriminate Hv.
        cbn [value fst] in Hv. injection Hv as <-.
        exists key, (v :: vectors). split_and!; [reflexivity | discriminate | exact He].
      * unfold build_vector_store_body in Hv. rewrite Ht in Hv. discriminate Hv.
    + rewrite lookup_insert_ne by exact Hne. apply Hsound.
Qed.

(** X11: if every cached index is the index of the text it is cached
    for (its documents are the chunks of that text and its vectors are what
    the embedding model returned for them), this is still so after any run
    of the script. *)
Theorem cached_indexes_stay_sound (w : Widgets) (s : State Vec) :
  cache_sound env s ->
  cache_sound env (state_after (script env w s)).
Proof.
  assert (forall w0 s0, cache_sound env s0 ->
                        cache_sound env (state_after (main env w0 s0))) as Hmain.
  { intros w0 s0 H0 t vs elements.
    destruct (main_cache w0 s0) as [-> | [t' ->]]; [apply H0 |].
    now apply build_sound. }
  intros H. rewrite script_state.
  destruct (clear_chat_history w); apply Hmain; exact H.
Qed.

(** The first run on a document whose index can be built: the index is
    in the cache afterwards. *)
Lemma first_run_cache (w : Widgets) (s : State Vec) (text : str)
      (v : Vec) (vectors : list Vec) :
  truthy (api_key w) = true ->
  clear_chat_history w = false ->
  value (get_text_content env (uploaded_file w) s) = Some text ->
  truthy text = true ->
  resource_cache s !! text = None ->
  embeddings_new env (embeddings_of (api_key w)) = Ok tt ->
  embed_documents env (embeddings_of (api_key w)) (split_text 1000 200 text)
  = Ok (v :: vectors) ->
  resource_cache (state_after (script env w s)) !! text
  = Some (Some (index_of text (api_key w) (v :: vectors)), []).
Proof.
  intros Hkey Hclear Htext Ht Hmiss Hnew Hemb.
  rewrite script_state, Hclear.
  unfold main. rewrite Hkey. cbn [negb].
  rewrite state_after_bind, (get_text_content_some env _ _ _ Htext).
  cbn [value state_after fst snd].
  destruct text as [|c text]; [discriminate |].
  rewrite state_after_bind, (build_miss env _ _ _ Hmiss).
  rewrite (build_body_outcome _ _ _ Ht), Hnew. cbv zeta. rewrite Hemb.
  cbn [value drawn state_after fst snd].
  rewrite (proj1 (query_only_chat env w _ _)).
  unfold set_resource_cache. cbn [resource_cache]. apply lookup_insert_eq.
Qed.

(** The calls of that first run when no question is submitted in it. *)
Lemma first_run_calls (w : Widgets) (s : State Vec) (text : str)
      (v : Vec) (vectors : list Vec) :
  truthy (api_key w) = true ->
  clear_chat_history w = false ->
  chat_input w = None ->
  value (get_text_content env (uploaded_file w) s) = Some text ->
  truthy text = true ->
  resource_cache s !! text = None ->
  embeddings_new env (embeddings_of (api_key w)) = Ok tt ->
  embed_documents env (embeddings_of (api_key w)) (split_text 1000 200 text)
  = Ok (v :: vectors) ->
  embedder_calls (state_after (script env w s))
  = embedder_calls s
    ++ [EmbedDocuments (embeddings_of (api_key w)) (split_text 1000 200 text)]
  /\ generator_calls (state_after (script env w s)) = generator_calls s.
Proof.
  intros Hkey Hclear Hin Htext Ht Hmiss Hnew Hemb.
  rewrite script_state, Hclear.
  unfold main. rewrite Hkey. cbn [negb].
  rewrite state_after_bind, (get_text_content_some env _ _ _ Htext).
  cbn [value state_after fst snd].
  destruct text as [|c text]; [discriminate |].
  rewrite state_after_bind, (build_miss env _ _ _ Hmiss).
  rewrite (build_body_outcome _ _ _ Ht), Hnew. cbv zeta. rewrite Hemb.
  cbn [value drawn state_after fst snd].
  rewrite state_after_bind, get_rag_chain_state.
  rewrite state_after_bind, init_messages_run. cbn [value state_after fst snd].
  rewrite state_after_bind, replay_messages_run. cbn [value state_after fst snd].
  rewrite Hin. now split.
Qed.

(** X12: the first run on a document with a key the embedding model
    accepts leaves the session ready for that document, with the index
    built from its chunks under that key; it stays ready for later runs on
    the same upload, also under another key. *)
Theorem first_run_makes_ready (w w' : Widgets) (s : State Vec) (text : str)
        (v : Vec) (vectors : list Vec) :
  truthy (api_key w) = true ->
  clear_chat_history w = false ->
  value (get_text_content env (uploaded_file w) s) = Some text ->
  truthy text = true ->
  resource_cache s !! text = None ->
  embeddings_new env (embeddings_of (api_key w)) = Ok tt ->
  embed_documents env (embeddings_of (api_key w)) (split_text 1000 200 text)
  = Ok (v :: vectors) ->
  uploaded_file w' = uploaded_file w ->
  truthy (api_key w') = true ->
  clear_chat_history w' = false ->
  Ready env w' (state_after (script env w s)) text
        (index_of text (api_key w) (v :: vectors)).
Proof.
  intros Hkey Hclear Htext Ht Hmiss Hnew Hemb Hfile Hkey' Hclear'.
  unfold Ready. split_and!; try assumption.
  - rewrite Hfile, <- Htext. apply get_text_content_value.
  - exists []. now apply first_run_cache.
Qed.

(** X13: loading a document with one key and then asking a question
    with another key embeds the chunks and the question with the first key
    (the cached index keeps its embeddings object), while the chat model is
    called with the second key. *)
Theorem load_then_ask_calls (w w' : Widgets) (s : State Vec) (text : str)
        (v : Vec) (vectors : list Vec) (q : str) (context : list Document) :
  truthy (api_key w) = true ->
  clear_chat_history w = false ->
  chat_input w = None ->
  value (get_text_content env (uploaded_file w) s) = Some text ->
  truthy text = true ->
  resource_cache s !! text = None ->
  embeddings_new env (embeddings_of (api_key w)) = Ok tt ->
  embed_documents env (embeddings_of (api_key w)) (split_text 1000 200 text)
  = Ok (v :: vectors) ->
  uploaded_file w' = uploaded_file w ->
  truthy (api_key w') = true ->
  clear_chat_history w' = false ->
  Asked env w' (index_of text (api_key w) (v :: vectors)) q context ->
  let s1 := state_after (script env w s) in
  embedder_calls (state_after (script env w' s1))
  = embedder_calls s
    ++ [ EmbedDocuments (embeddings_of (api_key w)) (split_text 1000 200 text);
         EmbedQuery (embeddings_of (api_key w)) q ]
  /\ generator_calls (state_after (script env w' s1))
     = generator_calls s
       ++ [ (llm_of (api_key w'),
             compose_prompt
               (chain_of (index_of text (api_key w) (v :: vectors)) (api_key w'))
               context q) ].
Proof.
  intros Hkey Hclear Hnone Htext Ht Hmiss Hnew Hemb Hfile Hkey' Hclear' Hasked s1.
  assert (Ready env w' s1 text (index_of text (api_key w) (v :: vectors)))
    as Hready.
  { unfold Ready. split_and!; try assumption.
    - rewrite Hfile, <- Htext. apply get_text_content_value.
    - exists []. now apply first_run_cache. }
  destruct (first_run_calls w s text v vectors) as [He Hg]; try assumption.
  fold s1 in He, Hg.
  rewrite script_state, Hclear', (main_ready_chat _ _ _ _ Hready).
  destruct Hasked as (Hin & Hq & Hllm & qv & Hv & Hs).
  rewrite Hin. destruct q as [|c q]; [discriminate |].
  rewrite (get_rag_chain_ok env _ _ _ Hllm). cbn [value fst].
  destruct (chat_invoke env (llm_of (api_key w'))
              (compose_prompt
                 (chain_of (index_of text (api_key w) (v :: vectors)) (api_key w'))
                 context (c :: q)))
    as [answer|e] eqn:Hgen.
  - rewrite (ask_answered env _ _ _ _ _ _ _ Hv Hs Hgen).
    cbn [state_after snd embedder_calls generator_calls append_message
         log_generator_call log_embedder_call set_messages embedding_function
         index_of].
    rewrite He, Hg, <- app_assoc. split; reflexivity.
  - rewrite (ask_failed env _ _ _ _ _ _ _ Hv Hs Hgen).
    cbn [state_after snd embedder_calls generator_calls append_message
         log_generator_call log_embedder_call set_messages embedding_function
         index_of].
    rewrite He, Hg, <- app_assoc. split; reflexivity.
Qed.

(** X14: a run of a ready session without a question draws the page
    header, the elements replayed from the cache, and every turn of the
    conversation in order, one chat message per turn; it changes nothing in
    the state but the initialisation of the message list. *)
Theorem ready_page_shows_conversation (w : Widgets) (s : State Vec) (text : str)
        (vs : FAISS Vec) :
  Ready env w s text vs ->
  chat_input w = None ->
  chat_model_new env (llm_of (api_key w)) = Ok tt ->
  exists elements,
    resource_cache s !! text = Some (Some vs, elements)
    /\ drawn (script env w s)
       = [ Title ([128100%N] ++ lit " Samuel's Interactive Biography");
           Markdown (lit "Upload a biography (text file) and ask questions to chat with it.") ]
         ++ elements ++ List.map render (history s)
    /\ state_after (script env w s) = set_messages (Some (history s)) s.
Proof.
  intros Hready Hin Hllm.
  pose proof (main_ready_chat _ _ _ _ Hready) as Hst.
  destruct (main_ready_drawn _ _ _ _ Hready) as (elements & Hcache & Hdr).
  destruct Hready as (_ & Hclear & _).
  exists elements. split; [exact Hcache |].
  rewrite script_state, Hclear, Hst, Hin. split; [| reflexivity].
  unfold script. rewrite Hclear, page_drawn, Hdr, Hin.
  rewrite (get_rag_chain_ok env _ _ _ Hllm).
  cbn [drawn ret fst snd app]. now rewrite app_nil_r.
Qed.

End Extras.

(* ===================================================================== *)
(** * The further properties on the sample session *)
(* ===================================================================== *)

Lemma ready_any_env (env : Env (list Z)) :
  Ready env Scenario.asking Scenario.loaded
        (lit Scenario.biography) Scenario.biography_index.
Proof.
  unfold Ready. split_and!; try (vm_compute; reflexivity).
  exists []. vm_compute. reflexivity.
Qed.

Lemma missing_key_stops_run_witness :
  script (Scenario.stub_env false)
         (Scenario.widgets "" Scenario.upload false (Some Scenario.question))
         Scenario.loaded
  = (tt,
     [ Title ([128100%N] ++ lit " Samuel's Interactive Biography");
       Markdown (lit "Upload a biography (text file) and ask questions to chat with it.");
       Warning (lit "Please enter your Google API Key in the sidebar to start.") ],
     Scenario.loaded).
Proof.
  exact (missing_key_stops_run
           (Scenario.stub_env false)
           (Scenario.widgets "" Scenario.upload false (Some Scenario.question))
           Scenario.loaded eq_refl).
Defined.

Lemma failed_build_is_cached_witness :
  let first := build_vector_store Faults.key_rejected (lit Scenario.biography)
                                  (lit "key-1") Scenario.fresh in
  embed_documents Faults.key_rejected (embeddings_of (lit "key-2"))
                  (split_text 1000 200 (lit Scenario.biography))
  = Ok [[64]]
  /\ value first = None
  /\ build_vector_store Faults.key_rejected (lit Scenario.biography)
                        (lit "key-2") (state_after first)
     = (None,
        [Error (lit "Error creating vector store: " ++ lit "API key not valid")],
        state_after first).
Proof.
  cbv zeta.
  destruct (failed_build_is_cached
              Faults.key_rejected (lit Scenario.biography)
              (lit "key-1") (lit "key-2") (lit "API key not valid") Scenario.fresh)
    as (Hv & _ & Hagain); try (vm_compute; reflexivity).
  split; [vm_compute; reflexivity |]. split; [exact Hv | exact Hagain].
Defined.

Lemma built_index_covers_all_chunks_witness :
  List.map page_content (docstore Scenario.biography_index)
  = split_text 1000 200 (lit Scenario.biography)
  /\ embedding_function Scenario.biography_index = embeddings_of (lit "key-1").
Proof.
  destruct (built_index_covers_all_chunks
              (Scenario.stub_env false) (lit Scenario.biography) (lit "key-1")
              Scenario.fresh Scenario.biography_index)
    as (Hchunks & _ & Hemb & _); try (vm_compute; reflexivity).
  split; [exact Hchunks | exact Hemb].
Defined.

Lemma unbroken_text_rejoins_witness :
  rejoin 200 (split_text 1000 200 Scenario.unbroken) = Scenario.unbroken.
Proof.
  apply unbroken_text_rejoins. vm_compute. reflexivity.
Defined.

Lemma query_makes_exactly_two_calls_witness :
  embedder_calls (state_after (script (Scenario.stub_env true) Scenario.asking Scenario.loaded))
  = embedder_calls Scenario.loaded
    ++ [EmbedQuery (embeddings_of (lit "key-1")) (lit Scenario.question)].
Proof.
  exact (proj1 (query_makes_exactly_two_calls
                  (Scenario.stub_env true) Scenario.asking Scenario.loaded
                  (lit Scenario.biography) Scenario.biography_index
                  (lit Scenario.question) [Scenario.biography_document]
                  (scenario_ready true) (scenario_asked true))).
Defined.

Lemma chain_failure_reported_per_question_witness :
  messages (state_after (script Faults.chat_client_down Scenario.asking Scenario.loaded))
  = Some (history Scenario.loaded ++ [user_turn (lit Scenario.question)])
  /\ generator_calls (state_after (script Faults.chat_client_down Scenario.asking Scenario.loaded))
     = generator_calls Scenario.loaded.
Proof.
  destruct (chain_failure_reported_per_question
              Faults.chat_client_down Scenario.asking Scenario.loaded
              (lit Scenario.biography) Scenario.biography_index
              (lit Scenario.question) (lit "invalid model")
              (ready_any_env _) eq_refl eq_refl eq_refl)
    as (Hm & _ & Hg & _).
  split; [exact Hm | exact Hg].
Defined.

Lemma retrieval_failure_skips_generator_witness :
  messages (state_after (script Faults.retriever_down Scenario.asking Scenario.loaded))
  = Some (history Scenario.loaded ++ [user_turn (lit Scenario.question)])
  /\ generator_calls (state_after (script Faults.retriever_down Scenario.asking Scenario.loaded))
     = generator_calls Scenario.loaded.
Proof.
  destruct (retrieval_failure_skips_generator
              Faults.retriever_down Scenario.asking Scenario.loaded
              (lit Scenario.biography) Scenario.biography_index
              (lit Scenario.question) (lit "network unreachable")
              (ready_any_env _) eq_refl eq_refl eq_refl eq_refl)
    as (Hm & Hg & _).
  split; [exact Hm | exact Hg].
Defined.

Lemma history_append_only_witness :
  exists added,
    history (state_after (script (Scenario.stub_env false) Scenario.asking Scenario.answered))
    = history Scenario.answered ++ added
    /\ length added = 2%nat.
Proof.
  destruct (history_append_only (Scenario.stub_env false) Scenario.asking
                                Scenario.answered eq_refl)
    as (added & Hh & Hshape).
  exists added. split; [exact Hh |].
  apply (f_equal (@length Message)) in Hh. rewrite length_app in Hh.
  assert (length (history (state_after (script (Scenario.stub_env false) Scenario.asking
                                               Scenario.answered))) = 4%nat) as H4
    by (vm_compute; reflexivity).
  assert (length (history Scenario.answered) = 2%nat) as H2
    by (vm_compute; reflexivity).
  rewrite H4, H2 in Hh. lia.
Defined.

Lemma cache_never_invalidated_witness :
  resource_cache
    (state_after (script (Scenario.stub_env false)
                         (Scenario.widgets "key-2" (Some (list_byte_of_string "Bob.")) true None)
                         Scenario.answered))
  !! lit Scenario.biography
  = Some (Some Scenario.biography_index, []).
Proof.
  apply cache_never_invalidated. vm_compute. reflexivity.
Defined.

Lemma cached_indexes_stay_sound_witness :
  cache_sound (Scenario.stub_env false)
              (state_after (script (Scenario.stub_env false) Faults.first_load
                                   Scenario.fresh)).
Proof.
  apply cached_indexes_stay_sound.
  intros text vs elements H. unfold Scenario.fresh in H.
  cbn [resource_cache] in H. rewrite lookup_empty in H. discriminate H.
Defined.

Lemma first_run_makes_ready_witness :
  Ready (Scenario.stub_env false) Faults.asking_with_new_key
        (state_after (script (Scenario.stub_env false) Faults.first_load Scenario.fresh))
        (lit Scenario.biography)
        (index_of (lit Scenario.biography) (lit "key-1") [[64]]).
Proof.
  apply (first_run_makes_ready
           (Scenario.stub_env false) Faults.first_load Faults.asking_with_new_key
           Scenario.fresh (lit Scenario.biography) [64] []);
    vm_compute; reflexivity.
Defined.

Lemma load_then_ask_calls_witness :
  let env := Scenario.stub_env false in
  let s1 := state_after (script env Faults.first_load Scenario.fresh) in
  embedder_calls (state_after (script env Faults.asking_with_new_key s1))
  = [ EmbedDocuments (embeddings_of (lit "key-1")) [lit Scenario.biography];
      EmbedQuery (embeddings_of (lit "key-1")) (lit Scenario.question) ].
Proof.
  cbv zeta.
  assert (Asked (Scenario.stub_env false) Faults.asking_with_new_key
                (index_of (lit Scenario.biography) (lit "key-1") [[64]])
                (lit Scenario.question) [Scenario.biography_document]) as Hasked.
  { unfold Asked. split_and!; try (vm_compute; reflexivity).
    exists [21]. split; vm_compute; reflexivity. }
  pose proof (load_then_ask_calls
                (Scenario.stub_env false) Faults.first_load Faults.asking_with_new_key
                Scenario.fresh (lit Scenario.biography) [64] []
                (lit Scenario.question) [Scenario.biography_document]
                ltac:(vm_compute; reflexivity) ltac:(vm_compute; reflexivity)
                ltac:(vm_compute; reflexivity) ltac:(vm_compute; reflexivity)
                ltac:(vm_compute; reflexivity) ltac:(vm_compute; reflexivity)
                ltac:(vm_compute; reflexivity) ltac:(vm_compute; reflexivity)
                ltac:(vm_compute; reflexivity) ltac:(vm_compute; reflexivity)
                ltac:(vm_compute; reflexivity) Hasked) as [He _].
  rewrite He. vm_compute. reflexivity.
Defined.

Lemma ready_page_shows_conversation_witness :
  drawn (script (Scenario.stub_env false) Faults.first_load Scenario.answered)
  = [ Title ([128100%N] ++ lit " Samuel's Interactive Biography");
      Markdown (lit "Upload a biography (text file) and ask questions to chat with it.");
      render (user_turn (lit Scenario.question));
      render (assistant_turn (lit "Paris")) ].
Proof.
  assert (Ready (Scenario.stub_env false) Faults.first_load Scenario.answered
                (lit Scenario.biography) Scenario.biography_index) as Hready.
  { unfold Ready. split_and!; try (vm_compute; reflexivity).
    exists []. vm_compute. reflexivity. }
  destruct (ready_page_shows_conversation
              (Scenario.stub_env false) Faults.first_load Scenario.answered
              (lit Scenario.biography) Scenario.biography_index
              Hready eq_refl eq_refl)
    as (elements & Hcache & Hdrawn & _).
  rewrite Hdrawn. vm_compute in Hcache. injection Hcache as <-.
  vm_compute. reflexivity.
Defined.
